(** * yapic_io.minibatch: the Minibatch training-batch iterator

    A shallow embedding of [yapic_io/minibatch.py] and the properties of
    its batch assembly.

    Modelling conventions.
    - Python objects live in a heap ([gmap loc Minibatch]); methods take the
      reference [self] and run in a small monad that threads the world,
      records the calls made to the outside (data source, random module) and
      may raise.  A raised exception keeps the world as it was mutated so far,
      as in Python.
    - A Python float is a finite value, an infinity or nan ([pyfloat]).  An
      operation on finite values overflows to an infinity exactly when the
      IEEE double operation does; the rounding of its finite results is not
      modelled (they are kept exact).
    - The data source ([self.dataset]) is not part of minibatch.py; it is an
      interface ([DataSource]) the development is parametric in. *)

From Stdlib Require Import ZArith QArith Qabs Lqa List String.
From stdpp Require Import base option list gmap strings pretty.

Local Open Scope Z_scope.

(** ** Exceptions and results *)

(** A Python exception: its class name and its message. *)
Inductive exn : Type :=
  | PyExc (cls : string) (msg : string).

Definition result (A : Type) : Type := (exn + A)%type.

Definition ValueError (msg : string) : exn := PyExc "ValueError" msg.
Definition AttributeError (msg : string) : exn := PyExc "AttributeError" msg.

(** ** numpy arrays *)

(** An n-dimensional array: its shape and its elements in row-major order. *)
Record ndarray : Type := mk_ndarray {
  shape : list nat;
  elems : list Q
}.

(** Number of elements a shape holds. *)
Definition size_of (s : list nat) : nat := foldr Nat.mul 1%nat s.

(** Arrays whose buffer has the size the shape announces (every array numpy
    builds is one). *)
Definition well_formed (a : ndarray) : Prop := length (elems a) = size_of (shape a).

(** [np.array(xs)] on a Python list of arrays (numpy >= 1.24): the arrays are
    stacked along a new leading axis; the empty list gives the empty
    one-dimensional array; arrays of different shapes raise [ValueError]. *)
Definition np_array (xs : list ndarray) : result ndarray :=
  match xs with
  | [] => inr {| shape := [0%nat]; elems := [] |}
  | x :: rest =>
      if decide (Forall (fun y => shape y = shape x) rest)
      then inr {| shape := length xs :: shape x; elems := concat (map elems xs) |}
      else inl (ValueError "inhomogeneous shape")
  end.

(** [a.shape[0]] *)
Definition leading_dim (a : ndarray) : option nat := head (shape a).

(** [a[i]]: the i-th sub-array along the leading axis. *)
Definition np_index (a : ndarray) (i : nat) : option ndarray :=
  match shape a with
  | [] => None
  | n :: s =>
      if decide (i < n)%nat
      then Some {| shape := s; elems := take (size_of s) (drop (i * size_of s) (elems a)) |}
      else None
  end.

(** ** Python floats *)

(** A float: a finite value, plus or minus infinity, or nan. *)
Inductive pyfloat : Type :=
  | Finite (q : Q)
  | Infinity (negative : bool)
  | NaN.

(** The least magnitude that rounds to an infinity in binary64: the largest
    double, 2^1024 - 2^971, plus half a unit in its last place. *)
Definition overflow_threshold : Q := inject_Z (2 ^ 1024 - 2 ^ 970).

(** The float an operation returns for the exact finite result [q]. *)
Definition round_overflow (q : Q) : pyfloat :=
  if Qle_bool overflow_threshold (Qabs q)
  then Infinity (negb (Qle_bool 0 q))
  else Finite q.

Definition fneg (x : pyfloat) : pyfloat :=
  match x with
  | Finite q => Finite (- q)
  | Infinity s => Infinity (negb s)
  | NaN => NaN
  end.

(** [x + y] *)
Definition fadd (x y : pyfloat) : pyfloat :=
  match x, y with
  | NaN, _ | _, NaN => NaN
  | Infinity s, Infinity s' => if Bool.eqb s s' then Infinity s else NaN
  | Infinity s, Finite _ | Finite _, Infinity s => Infinity s
  | Finite p, Finite q => round_overflow (p + q)
  end.

(** [x - y] *)
Definition fsub (x y : pyfloat) : pyfloat := fadd x (fneg y).

(** [x * y] *)
Definition fmul (x y : pyfloat) : pyfloat :=
  match x, y with
  | NaN, _ | _, NaN => NaN
  | Infinity s, Infinity s' => Infinity (xorb s s')
  | Infinity s, Finite q | Finite q, Infinity s =>
      if Qeq_bool q 0 then NaN else Infinity (xorb s (negb (Qle_bool 0 q)))
  | Finite p, Finite q => round_overflow (p * q)
  end.




(** ** The process-wide random source *)

(** The generator state: the tape of 53-bit outcomes still to come and the
    position reached on it. *)
Record Rng : Type := mk_Rng {
  tape : nat -> N;
  cursor : nat
}.

Definition two53 : positive := Eval cbv in (2 ^ 53)%positive.

(** [random.random()]: k / 2^53 for a 53-bit k, hence in [0, 1). *)
Definition random_random (g : Rng) : Q * Rng :=
  (Z.of_N (tape g (cursor g) mod Npos two53) # two53,
   {| tape := tape g; cursor := S (cursor g) |}).

(** [random.uniform(a, b)] is [a + (b - a) * random()], in floats. *)
Definition random_uniform (a b : pyfloat) (g : Rng) : pyfloat * Rng :=
  let '(r, g') := random_random g in (fadd a (fmul (fsub b a) (Finite r)), g').

(** ** What travels between the sampler and the data source *)

(** Modelled from the spec: the augmentation record of an example (its class
    is declared with the data source, not in minibatch.py): the two angles
    applied, or nothing for an unaugmented example. *)
Inductive Augmentation : Type :=
  | NoAugmentation
  | Augmented (rotation_angle shear_angle : pyfloat).

(** The object [pick_random_training_template] returns; the sampler reads its
    attributes [pixels], [weights] and [augmentation]. *)
Record TemplateData : Type := mk_TemplateData {
  tpl_pixels : ndarray;
  tpl_weights : ndarray;
  tpl_augmentation : Augmentation
}.

(** The arguments of one call of [pick_random_training_template]: two
    positional ones and the keywords.  [None] for an angle means the keyword
    is not passed. *)
Record Request : Type := mk_Request {
  rq_size_zxy : Z * Z * Z;
  rq_channels : list Z;
  rq_pixel_padding : Z * Z * Z;
  rq_equalized : bool;
  rq_labels : list Z;
  rq_rotation_angle : option pyfloat;
  rq_shear_angle : option pyfloat
}.

(** The data source interface consumed by the sampler.  Every method may
    change the data source's own state and consume the process-wide random
    source, and either returns or raises. *)
Class DataSource (D : Type) : Type := {
  get_channels : D -> Rng -> D * Rng * result (list Z);
  get_label_values : D -> Rng -> D * Rng * result (list Z);
  pick_random_training_template : Request -> D -> Rng -> D * Rng * result TemplateData
}.

(** Calls leaving the sampler, with what came back. *)
Inductive Event : Type :=
  | EvGetChannels (reply : result (list Z))
  | EvGetLabelValues (reply : result (list Z))
  | EvPick (req : Request) (reply : result TemplateData)
  | EvUniform (lo hi : pyfloat) (value : pyfloat).

(** ** The Minibatch object *)

Definition loc : Type := positive.

(** The attributes of a Minibatch instance.  [self.dataset] is the one data
    source of the world and is not stored.  [pixels] and [weights] are [None]
    until the first batch is stacked; [augmentations] is [None] while the
    attribute has not been assigned. *)
Record Minibatch : Type := mk_Minibatch {
  padding_zxy : Z * Z * Z;
  size_zxy : Z * Z * Z;
  channels : list Z;
  labels : list Z;
  batch_size : Z;
  equalized : bool;
  augment : bool;
  rotation_range : pyfloat * pyfloat;
  shear_range : pyfloat * pyfloat;
  pixels : option ndarray;
  weights : option ndarray;
  augmentations : option (list Augmentation)
}.

Definition set_pixels (v : ndarray) (o : Minibatch) : Minibatch :=
  {| padding_zxy := padding_zxy o; size_zxy := size_zxy o; channels := channels o;
     labels := labels o; batch_size := batch_size o; equalized := equalized o;
     augment := augment o; rotation_range := rotation_range o;
     shear_range := shear_range o;
     pixels := Some v; weights := weights o; augmentations := augmentations o |}.

Definition set_weights (v : ndarray) (o : Minibatch) : Minibatch :=
  {| padding_zxy := padding_zxy o; size_zxy := size_zxy o; channels := channels o;
     labels := labels o; batch_size := batch_size o; equalized := equalized o;
     augment := augment o; rotation_range := rotation_range o;
     shear_range := shear_range o;
     pixels := pixels o; weights := Some v; augmentations := augmentations o |}.

Definition set_augmentations (v : list Augmentation) (o : Minibatch) : Minibatch :=
  {| padding_zxy := padding_zxy o; size_zxy := size_zxy o; channels := channels o;
     labels := labels o; batch_size := batch_size o; equalized := equalized o;
     augment := augment o; rotation_range := rotation_range o;
     shear_range := shear_range o;
     pixels := pixels o; weights := weights o; augmentations := Some v |}.

(** The arguments of the constructor, defaults filled in by the caller. *)
Record Args : Type := mk_Args {
  arg_batch_size : Z;
  arg_size_zxy : Z * Z * Z;
  arg_padding_zxy : Z * Z * Z;
  arg_augment : bool;
  arg_rotation_range : pyfloat * pyfloat;
  arg_shear_range : pyfloat * pyfloat;
  arg_equalized : bool
}.

Definition default_args (batch_size : Z) (size_zxy : Z * Z * Z) : Args :=
  {| arg_batch_size := batch_size; arg_size_zxy := size_zxy;
     arg_padding_zxy := (0, 0, 0); arg_augment := true;
     arg_rotation_range := (Finite (-45), Finite 45); arg_shear_range := (Finite (-5), Finite 5);
     arg_equalized := false |}.

(** [list(range(n))] for a Python int [n]: empty when [n <= 0]. *)
Definition range (n : Z) : list Z := map Z.of_nat (seq 0 (Z.to_nat n)).

(** [str] of the values [__repr__] formats with [%s]: a Python int, a tuple
    of three of them, a bool. *)
Definition str_int (n : Z) : string := pretty n.

Definition str_tuple3 (t : Z * Z * Z) : string :=
  let '(z, x, y) := t in
  "(" +:+ str_int z +:+ ", " +:+ str_int x +:+ ", " +:+ str_int y +:+ ")".

Definition str_bool (b : bool) : string := if b then "True" else "False".

(** The newline character. *)
Definition nl : string := String (Ascii.ascii_of_nat 10) EmptyString.

Declare Scope py_scope.
Delimit Scope py_scope with py.

Section Model.

Context {D : Type} `{DataSource D}.

(** ** The world and the monad of method bodies *)

Record World : Type := mk_World {
  heap : gmap loc Minibatch;
  dataset_state : D;
  random_state : Rng
}.

(** One run of a method: the world it leaves, the calls it made, and its
    return value or the exception it raised. *)
Record Run (A : Type) : Type := mk_Run {
  run_world : World;
  run_trace : list Event;
  run_outcome : result A
}.
Arguments mk_Run {A} _ _ _.
Arguments run_world {A} _.
Arguments run_trace {A} _.
Arguments run_outcome {A} _.

Definition M (A : Type) : Type := World -> Run A.

Definition ret {A} (a : A) : M A := fun w => mk_Run w [] (inr a).

Definition raise {A} (e : exn) : M A := fun w => mk_Run w [] (inl e).

Definition bind {A B} (m : M A) (k : A -> M B) : M B := fun w =>
  let r := m w in
  match run_outcome r with
  | inl e => mk_Run (run_world r) (run_trace r) (inl e)
  | inr a =>
      let r' := k a (run_world r) in
      mk_Run (run_world r') (run_trace r ++ run_trace r') (run_outcome r')
  end.

Notation "x <- c1 ;; c2" := (bind c1 (fun x => c2))
  (at level 100, c1 at next level, right associativity) : py_scope.
Notation "c1 ;; c2" := (bind c1 (fun _ => c2))
  (at level 100, right associativity) : py_scope.

Local Open Scope py_scope.

(** An exception or a value computed without effect (a numpy call). *)
Definition lift {A} (r : result A) : M A :=
  match r with inl e => raise e | inr a => ret a end.

(** Attribute access on [self]: read the instance. *)
Definition getattr (self : loc) : M Minibatch := fun w =>
  match heap w !! self with
  | Some o => mk_Run w [] (inr o)
  | None => mk_Run w [] (inl (AttributeError "no such object"))
  end.

(** Attribute assignment on [self]. *)
Definition setattr (self : loc) (f : Minibatch -> Minibatch) : M unit := fun w =>
  match heap w !! self with
  | Some o =>
      mk_Run {| heap := <[self := f o]> (heap w);
                dataset_state := dataset_state w;
                random_state := random_state w |} [] (inr tt)
  | None => mk_Run w [] (inl (AttributeError "no such object"))
  end.

(** Binding a freshly initialised instance to a reference. *)
Definition store (self : loc) (o : Minibatch) : M unit := fun w =>
  mk_Run {| heap := <[self := o]> (heap w);
            dataset_state := dataset_state w;
            random_state := random_state w |} [] (inr tt).

(** The reference of the instance about to be created. *)
Definition new_object : M loc := fun w =>
  mk_Run w [] (inr (fresh (dom (heap w)))).

(** A call of a data source method: it runs on the data source's state and
    the random source, and the call is recorded with its reply. *)
Definition call {A} (method : D -> Rng -> D * Rng * result A)
    (ev : result A -> Event) : M A := fun w =>
  let '(d, g, reply) := method (dataset_state w) (random_state w) in
  mk_Run {| heap := heap w; dataset_state := d; random_state := g |}
         [ev reply] reply.

Definition dataset_get_channels : M (list Z) := call get_channels EvGetChannels.

Definition dataset_get_label_values : M (list Z) :=
  call get_label_values EvGetLabelValues.

Definition dataset_pick (req : Request) : M TemplateData :=
  call (pick_random_training_template req) (EvPick req).

(** A call of [random.uniform]. *)
Definition uniform (a b : pyfloat) : M pyfloat := fun w =>
  let '(v, g) := random_uniform a b (random_state w) in
  mk_Run {| heap := heap w; dataset_state := dataset_state w; random_state := g |}
         [EvUniform a b v] (inr v).

(** [for x in xs: body], the loop's local variables passed along. *)
Fixpoint for_each {A S} (xs : list A) (body : A -> S -> M S) (acc : S) : M S :=
  match xs with
  | [] => ret acc
  | x :: xs' => acc' <- body x acc ;; for_each xs' body acc'
  end.

(** ** The methods of Minibatch *)

Definition _get_random_rotation (self : loc) : M pyfloat :=
  o <- getattr self ;;
  let '(a, b) := rotation_range o in uniform a b.

Definition _get_random_shear (self : loc) : M pyfloat :=
  o <- getattr self ;;
  let '(a, b) := shear_range o in uniform a b.

Definition _pick_random_tpl (self : loc) : M TemplateData :=
  o <- getattr self ;;
  if negb (augment o) then
    dataset_pick
      {| rq_size_zxy := size_zxy o; rq_channels := channels o;
         rq_pixel_padding := padding_zxy o; rq_equalized := equalized o;
         rq_labels := labels o;
         rq_rotation_angle := None; rq_shear_angle := None |}
  else
    shear_angle <- _get_random_shear self ;;
    rotation_angle <- _get_random_rotation self ;;
    dataset_pick
      {| rq_size_zxy := size_zxy o; rq_channels := channels o;
         rq_pixel_padding := padding_zxy o; rq_equalized := equalized o;
         rq_labels := labels o;
         rq_rotation_angle := Some rotation_angle;
         rq_shear_angle := Some shear_angle |}.

Definition _fetch_minibatch_data (self : loc) : M unit :=
  o <- getattr self ;;
  acc <- for_each (range (batch_size o))
           (fun _ '(pixels, weights, augmentations) =>
              tpl_data <- _pick_random_tpl self ;;
              ret (pixels ++ [tpl_pixels tpl_data],
                   weights ++ [tpl_weights tpl_data],
                   augmentations ++ [tpl_augmentation tpl_data]))
           ([], [], []) ;;
  let '(pixels, weights, augmentations) := acc in
  p <- lift (np_array pixels) ;;
  setattr self (set_pixels p) ;;
  w <- lift (np_array weights) ;;
  setattr self (set_weights w) ;;
  setattr self (set_augmentations augmentations).

Definition __iter__ (self : loc) : M loc := ret self.

Definition __next__ (self : loc) : M loc :=
  _fetch_minibatch_data self ;;
  ret self.

(** [__init__]: the instance is bound to [self] once its configuration
    attributes are known; nothing can observe it earlier. *)
Definition __init__ (self : loc) (a : Args) : M unit :=
  channels <- dataset_get_channels ;;
  labels <- dataset_get_label_values ;;
  store self
    {| padding_zxy := arg_padding_zxy a; size_zxy := arg_size_zxy a;
       channels := channels; labels := labels;
       batch_size := arg_batch_size a; equalized := arg_equalized a;
       augment := arg_augment a; rotation_range := arg_rotation_range a;
       shear_range := arg_shear_range a;
       pixels := None; weights := None; augmentations := None |} ;;
  _fetch_minibatch_data self.

Definition __repr__ (self : loc) : M string :=
  o <- getattr self ;;
  let infostring :=
    "Minibatch " +:+ nl +:+
    "batch_size: " +:+ str_int (batch_size o) +:+ " " +:+ nl +:+
    "template size (size_zxy): " +:+ str_tuple3 (size_zxy o) +:+ " " +:+ nl +:+
    "augment: " +:+ str_bool (augment o) +:+ " " +:+ nl in
  ret infostring.

(** [Minibatch(dataset, batch_size, size_zxy, ...)]: a new instance is
    created, initialised and returned. *)
Definition Minibatch_new (a : Args) : M loc :=
  self <- new_object ;;
  __init__ self a ;;
  ret self.

(** The loop of the class docstring, on a sampler [m]:
<<
    counter = 0
    for mini in m:
        weights = mini.weights
        pixels = mini.pixels
        counter += 1
        if counter > 10:
            break
>>
    The [for] statement takes [iter(m)] once and [next] of it at every
    iteration.  [m] is infinite, so the model runs at most [fuel]
    iterations: it returns the counter when the loop breaks and [None] when
    the fuel is used up first. *)
Fixpoint example_loop_from (fuel : nat) (it : loc) (counter : Z) : M (option Z) :=
  match fuel with
  | O => ret None
  | S fuel' =>
      mini <- __next__ it ;;
      o <- getattr mini ;;
      let weights := weights o in
      let pixels := pixels o in
      let counter := counter + 1 in
      if counter >? 10 then ret (Some counter)
      else example_loop_from fuel' it counter
  end.

Definition example_loop (fuel : nat) (m : loc) : M (option Z) :=
  let counter := 0 in
  it <- __iter__ m ;;
  example_loop_from fuel it counter.

End Model.

Notation "x <- c1 ;; c2" := (bind c1 (fun x => c2))
  (at level 100, c1 at next level, right associativity) : py_scope.
Notation "c1 ;; c2" := (bind c1 (fun _ => c2))
  (at level 100, right associativity) : py_scope.

Arguments World D : clear implicits.
Arguments Run D A : clear implicits.
Arguments M D A : clear implicits.
Arguments mk_World {D} _ _ _.
Arguments heap {D} _.
Arguments dataset_state {D} _.
Arguments random_state {D} _.
Arguments mk_Run {D A} _ _ _.
Arguments run_world {D A} _.
Arguments run_trace {D A} _.
Arguments run_outcome {D A} _.

(** ** Data sources used to exercise the model *)

(** A data source that replays a script: fixed replies to the two
    enumerations, and one scripted reply per example requested (it raises
    once the script is used up, as a data source that finds no valid
    location does). *)
Record Script : Type := mk_Script {
  sc_channels : result (list Z);
  sc_labels : result (list Z);
  sc_examples : list (result TemplateData)
}.

Definition script_pick (_ : Request) (d : Script) (g : Rng)
    : Script * Rng * result TemplateData :=
  match sc_examples d with
  | [] => (d, g, inl (PyExc "RuntimeError" "no valid location"))
  | r :: rest =>
      ({| sc_channels := sc_channels d; sc_labels := sc_labels d;
          sc_examples := rest |}, g, r)
  end.

#[export] Instance scripted_source : DataSource Script := {|
  get_channels := fun d g => (d, g, sc_channels d);
  get_label_values := fun d g => (d, g, sc_labels d);
  pick_random_training_template := script_pick
|}.

(** A synthetic image: every example has the shapes the request asks for
    (channels x z x (x + 2 px) x (y + 2 py) pixels, labels x z x x x y
    weights), filled with the value of one draw of the random source; the
    state counts the examples handed out. *)
Definition grid_shape (n : nat) (zxy pad : Z * Z * Z) : list nat :=
  let '(z, x, y) := zxy in
  let '(pz, px, py) := pad in
  [n; Z.to_nat (z + 2 * pz); Z.to_nat (x + 2 * px); Z.to_nat (y + 2 * py)].

Definition grid_array (s : list nat) (v : Q) : ndarray :=
  {| shape := s; elems := repeat v (size_of s) |}.

Definition grid_pick (req : Request) (d : nat) (g : Rng)
    : nat * Rng * result TemplateData :=
  let '(v, g') := random_random g in
  (S d, g',
   inr {| tpl_pixels :=
            grid_array (grid_shape (length (rq_channels req)) (rq_size_zxy req)
                                   (rq_pixel_padding req)) v;
          tpl_weights :=
            grid_array (grid_shape (length (rq_labels req)) (rq_size_zxy req)
                                   (0, 0, 0)) v;
          tpl_augmentation :=
            match rq_rotation_angle req, rq_shear_angle req with
            | Some r, Some s => Augmented r s
            | _, _ => NoAugmentation
            end |}).

#[export] Instance grid_source : DataSource nat := {|
  get_channels := fun d g => (d, g, inr [0; 1; 2]);
  get_label_values := fun d g => (d, g, inr [1; 2; 3]);
  pick_random_training_template := grid_pick
|}.

(** A random tape: the draws 1/16, 2/16, 3/16, ... *)
Definition demo_rng : Rng :=
  {| tape := fun i => (N.of_nat (S i) * N.pow 2 49)%N; cursor := 0 |}.

Definition empty_world {D} (d : D) : World D :=
  {| heap := ∅; dataset_state := d; random_state := demo_rng |}.

(** Batches of two 1x2x2 templates padded by one pixel in x and y. *)
Definition demo_args : Args :=
  {| arg_batch_size := 2; arg_size_zxy := (1, 2, 2);
     arg_padding_zxy := (0, 1, 1); arg_augment := true;
     arg_rotation_range := (Finite (-45), Finite 45); arg_shear_range := (Finite (-5), Finite 5);
     arg_equalized := false |}.



(** A script that breaks the shape contract in its second batch: the first
    two examples stack, the next two have pixel arrays of one shape but
    weight arrays of two different shapes. *)
Definition flat_example (p : Q) (w : list Q) : TemplateData :=
  {| tpl_pixels := {| shape := [1%nat]; elems := [p] |};
     tpl_weights := {| shape := [length w]; elems := w |};
     tpl_augmentation := NoAugmentation |}.

Definition ragged_script : Script :=
  {| sc_channels := inr [0]; sc_labels := inr [1];
     sc_examples := [inr (flat_example 1 [1%Q]); inr (flat_example 2 [0%Q]);
                     inr (flat_example 3 [1%Q]); inr (flat_example 4 [0%Q; 1%Q])] |}.

Definition plain_args : Args :=
  {| arg_batch_size := 2; arg_size_zxy := (1, 1, 1);
     arg_padding_zxy := (0, 0, 0); arg_augment := false;
     arg_rotation_range := (Finite (-45), Finite 45); arg_shear_range := (Finite (-5), Finite 5);
     arg_equalized := true |}.

(** The world after [Minibatch(dataset, 2, (1, 1, 1), augment=False,
    equalized=True)] on that script; the sampler is object 1. *)
Definition ragged_world : World Script :=
  run_world (Minibatch_new plain_args (empty_world ragged_script)).

(** The sampler in that world: it holds the first batch. *)
Definition ragged_sampler : Minibatch :=
  {| padding_zxy := (0, 0, 0); size_zxy := (1, 1, 1); channels := [0];
     labels := [1]; batch_size := 2; equalized := true; augment := false;
     rotation_range := (Finite (-45), Finite 45); shear_range := (Finite (-5), Finite 5);
     pixels := Some {| shape := [2%nat; 1%nat]; elems := [1%Q; 2%Q] |};
     weights := Some {| shape := [2%nat; 1%nat]; elems := [1%Q; 0%Q] |};
     augmentations := Some [NoAugmentation; NoAugmentation] |}.

(** A script that honours the contract for two batches, and the world after
    a sampler (object 1) was constructed on it: the sampler holds the first
    batch, the script the second. *)
Definition steady_script : Script :=
  {| sc_channels := inr [0]; sc_labels := inr [1];
     sc_examples := [inr (flat_example 1 [1%Q]); inr (flat_example 2 [0%Q]);
                     inr (flat_example 3 [1%Q]); inr (flat_example 4 [0%Q])] |}.

Definition steady_world : World Script :=
  run_world (Minibatch_new plain_args (empty_world steady_script)).

(** The same with one example left after construction: the second fetch of
    the next advance finds nothing and raises. *)
Definition short_script : Script :=
  {| sc_channels := inr [0]; sc_labels := inr [1];
     sc_examples := [inr (flat_example 1 [1%Q]); inr (flat_example 2 [0%Q]);
                     inr (flat_example 3 [1%Q])] |}.

Definition short_world : World Script :=
  run_world (Minibatch_new plain_args (empty_world short_script)).

(** A data source whose channel enumeration fails. *)
Definition broken_script : Script :=
  {| sc_channels := inl (PyExc "IOError" "no image"); sc_labels := inr [1];
     sc_examples := [] |}.

(** An augmenting sampler on the steady script, and the same world with a
    data source in another state (one more example at the end of its
    script) that will still give the same two replies. *)
Definition augmenting_args : Args :=
  {| arg_batch_size := 2; arg_size_zxy := (1, 1, 1);
     arg_padding_zxy := (0, 0, 0); arg_augment := true;
     arg_rotation_range := (Finite (-45), Finite 45); arg_shear_range := (Finite (-5), Finite 5);
     arg_equalized := false |}.

Definition augmenting_world : World Script :=
  run_world (Minibatch_new augmenting_args (empty_world steady_script)).

Definition augmenting_sampler : Minibatch :=
  {| padding_zxy := (0, 0, 0); size_zxy := (1, 1, 1); channels := [0];
     labels := [1]; batch_size := 2; equalized := false; augment := true;
     rotation_range := (Finite (-45), Finite 45); shear_range := (Finite (-5), Finite 5);
     pixels := Some {| shape := [2%nat; 1%nat]; elems := [1%Q; 2%Q] |};
     weights := Some {| shape := [2%nat; 1%nat]; elems := [1%Q; 0%Q] |};
     augmentations := Some [NoAugmentation; NoAugmentation] |}.

Definition augmenting_world' : World Script :=
  {| heap := heap augmenting_world;
     dataset_state :=
       {| sc_channels := inr [0]; sc_labels := inr [1];
          sc_examples := [inr (flat_example 3 [1%Q]); inr (flat_example 4 [0%Q]);
                          inr (flat_example 5 [1%Q])] |};
     random_state := random_state augmenting_world |}.

(** A sampler with batch_size zero. *)
Definition zero_batch_args : Args :=
  {| arg_batch_size := 0; arg_size_zxy := (1, 1, 1);
     arg_padding_zxy := (0, 0, 0); arg_augment := true;
     arg_rotation_range := (Finite (-45), Finite 45); arg_shear_range := (Finite (-5), Finite 5);
     arg_equalized := false |}.

(** ** Reading traces *)

(** The requests sent to [pick_random_training_template], in order. *)
Definition requests (tr : list Event) : list Request :=
  flat_map (fun ev => match ev with EvPick req _ => [req] | _ => [] end) tr.

(** What the data source answered to them. *)
Definition pick_replies (tr : list Event) : list (result TemplateData) :=
  flat_map (fun ev => match ev with EvPick _ reply => [reply] | _ => [] end) tr.

(** The examples it returned. *)
Definition examples (tr : list Event) : list TemplateData :=
  flat_map (fun ev => match ev with EvPick _ (inr t) => [t] | _ => [] end) tr.

(** The calls of [random.uniform], with their values. *)
Definition uniform_calls (tr : list Event) : list Event :=
  flat_map (fun ev => match ev with EvUniform _ _ _ => [ev] | _ => [] end) tr.

(** The values the random source produced for the sampler. *)
Definition draws (tr : list Event) : list pyfloat :=
  flat_map (fun ev => match ev with EvUniform _ _ v => [v] | _ => [] end) tr.

(** The calls of [get_channels] and of [get_label_values]. *)
Definition channel_calls (tr : list Event) : list Event :=
  flat_map (fun ev => match ev with EvGetChannels _ => [ev] | _ => [] end) tr.

Definition label_calls (tr : list Event) : list Event :=
  flat_map (fun ev => match ev with EvGetLabelValues _ => [ev] | _ => [] end) tr.


(** The random source after [n] more calls of [random.random()]. *)
Definition skip (n : nat) (g : Rng) : Rng :=
  {| tape := tape g; cursor := (n + cursor g)%nat |}.

(** The string [__repr__] builds from three values. *)
Definition infostring (batch_size : Z) (size_zxy : Z * Z * Z) (augment : bool)
    : string :=
  "Minibatch " +:+ nl +:+
  "batch_size: " +:+ str_int batch_size +:+ " " +:+ nl +:+
  "template size (size_zxy): " +:+ str_tuple3 size_zxy +:+ " " +:+ nl +:+
  "augment: " +:+ str_bool augment +:+ " " +:+ nl.

(** The exception a call of the data source ended with, if any. *)
Definition raised (ev : Event) : option exn :=
  match ev with
  | EvGetChannels (inl e) | EvGetLabelValues (inl e) | EvPick _ (inl e) => Some e
  | _ => None
  end.

(** The two requests [_pick_random_tpl] can send for an instance. *)
Definition plain_request (o : Minibatch) : Request :=
  {| rq_size_zxy := size_zxy o; rq_channels := channels o;
     rq_pixel_padding := padding_zxy o; rq_equalized := equalized o;
     rq_labels := labels o; rq_rotation_angle := None; rq_shear_angle := None |}.

Definition augmented_request (o : Minibatch) (rotation shear : pyfloat) : Request :=
  {| rq_size_zxy := size_zxy o; rq_channels := channels o;
     rq_pixel_padding := padding_zxy o; rq_equalized := equalized o;
     rq_labels := labels o;
     rq_rotation_angle := Some rotation; rq_shear_angle := Some shear |}.

(** The two uniform calls behind the angles of a request (shear first). *)
Definition angle_draws (shear rotation : pyfloat * pyfloat) (req : Request)
    : list Event :=
  match rq_shear_angle req, rq_rotation_angle req with
  | Some s, Some r =>
      [EvUniform shear.1 shear.2 s; EvUniform rotation.1 rotation.2 r]
  | _, _ => []
  end.

(** The instance as [__init__] binds it, before the first batch. *)
Definition blank (a : Args) (chs lbs : list Z) : Minibatch :=
  {| padding_zxy := arg_padding_zxy a; size_zxy := arg_size_zxy a;
     channels := chs; labels := lbs;
     batch_size := arg_batch_size a; equalized := arg_equalized a;
     augment := arg_augment a; rotation_range := arg_rotation_range a;
     shear_range := arg_shear_range a;
     pixels := None; weights := None; augmentations := None |}.

(** The configuration of an instance: everything but the current batch. *)
Definition config_of (o : Minibatch) : Minibatch :=
  {| padding_zxy := padding_zxy o; size_zxy := size_zxy o; channels := channels o;
     labels := labels o; batch_size := batch_size o; equalized := equalized o;
     augment := augment o; rotation_range := rotation_range o;
     shear_range := shear_range o;
     pixels := None; weights := None; augmentations := None |}.

(** [v] is a value [random.uniform(lo, hi)] can return. *)
Definition drawn (lo hi v : pyfloat) : Prop :=
  exists g, v = (random_uniform lo hi g).1.

(** The stacking stage of [_fetch_minibatch_data] on the examples [ts]: the
    instance it leaves and whether it raised. *)
Definition stack_batch (o : Minibatch) (ts : list TemplateData)
    : Minibatch * result unit :=
  match np_array (map tpl_pixels ts) with
  | inl e => (o, inl e)
  | inr p =>
      match np_array (map tpl_weights ts) with
      | inl e => (set_pixels p o, inl e)
      | inr w =>
          (set_augmentations (map tpl_augmentation ts)
             (set_weights w (set_pixels p o)), inr tt)
      end
  end.

(** The whole of [_fetch_minibatch_data] after its loop ended with [res]. *)
Definition after_loop (o : Minibatch) (res : result (list TemplateData))
    : Minibatch * result unit :=
  match res with
  | inl e => (o, inl e)
  | inr ts => stack_batch o ts
  end.

(** The first exception in a sequence of replies, or all the values. *)
Fixpoint collect {A} (rs : list (result A)) : result (list A) :=
  match rs with
  | [] => inr []
  | inl e :: _ => inl e
  | inr a :: rs' =>
      match collect rs' with
      | inl e => inl e
      | inr l => inr (a :: l)
      end
  end.

(** The calls a run of picks makes, rebuilt from the instance, the values of
    the random source and the replies of the data source. *)
Fixpoint trace_from (o : Minibatch) (ds : list pyfloat)
    (replies : list (result TemplateData)) : list Event :=
  match replies with
  | [] => []
  | reply :: replies' =>
      if augment o then
        match ds with
        | s :: r :: ds' =>
            EvUniform (shear_range o).1 (shear_range o).2 s
              :: EvUniform (rotation_range o).1 (rotation_range o).2 r
              :: EvPick (augmented_request o r s) reply
              :: trace_from o ds' replies'
        | _ => []
        end
      else EvPick (plain_request o) reply :: trace_from o ds replies'
  end.

(** The error policy: a run with calls [tr] and outcome [out] propagates
    every failure unchanged.
    - A call of the data source that raised is the last call of the run (no
      retry, nothing after it) and the run raises the same exception.
    - When every fetch succeeded and stacking the pixels raises, the run
      raises that exception; likewise for stacking the weights.
    - The run raises nothing else. *)
Definition propagates {A} (tr : list Event) (out : result A) : Prop :=
  (forall ev e, In ev tr -> raised ev = Some e ->
     out = inl e /\ last tr = Some ev) /\
  (forall ts e, pick_replies tr = map inr ts ->
     np_array (map tpl_pixels ts) = inl e -> out = inl e) /\
  (forall ts p e, pick_replies tr = map inr ts ->
     np_array (map tpl_pixels ts) = inr p ->
     np_array (map tpl_weights ts) = inl e -> out = inl e) /\
  (forall e, out = inl e ->
     (exists ev, last tr = Some ev /\ raised ev = Some e) \/
     (exists ts, pick_replies tr = map inr ts /\
        (np_array (map tpl_pixels ts) = inl e \/
         (exists p, np_array (map tpl_pixels ts) = inr p) /\
         np_array (map tpl_weights ts) = inl e))).

(** The batch fields hold a batch of [n] examples. *)
Definition batch_ready (n : Z) (o : Minibatch) : Prop :=
  exists p w a,
    pixels o = Some p /\ weights o = Some w /\ augmentations o = Some a /\
    Z.of_nat <$> leading_dim p = Some n /\
    Z.of_nat <$> leading_dim w = Some n /\
    Z.of_nat (length a) = n.

(** Requests that ask for the same geometry (they may differ in the angles
    and the equalized flag). *)
Definition same_geometry (r1 r2 : Request) : Prop :=
  rq_size_zxy r1 = rq_size_zxy r2 /\ rq_channels r1 = rq_channels r2 /\
  rq_pixel_padding r1 = rq_pixel_padding r2 /\ rq_labels r1 = rq_labels r2.

Definition example_well_formed (t : TemplateData) : Prop :=
  well_formed (tpl_pixels t) /\ well_formed (tpl_weights t).

Section Behaviour.

Context {D : Type} `{DataSource D}.

Local Open Scope py_scope.

(** [reply] is an answer the data source can give to [req]. *)
Definition answers (req : Request) (reply : result TemplateData) : Prop :=
  exists d g d' g', pick_random_training_template req d g = (d', g', reply).

(** The data source contract of the spec: examples of one geometry all have
    the same pixel shape and the same weight shape. *)
Definition uniformly_shaped : Prop :=
  forall r1 r2 t1 t2,
    same_geometry r1 r2 -> answers r1 (inr t1) -> answers r2 (inr t2) ->
    shape (tpl_pixels t1) = shape (tpl_pixels t2) /\
    shape (tpl_weights t1) = shape (tpl_weights t2).

(** A data source that always finds an example. *)
Definition never_raises : Prop :=
  forall req e, ~ answers req (inl e).

(** A data source that does not use the process-wide random source. *)
Definition leaves_random_alone : Prop :=
  forall req d g, (pick_random_training_template req d g).1.2 = g.

(** The calls of one [_pick_random_tpl] on an instance, and its result. *)
Inductive pick_events (o : Minibatch) : list Event -> result TemplateData -> Prop :=
  | pick_plain reply :
      augment o = false ->
      answers (plain_request o) reply ->
      pick_events o [EvPick (plain_request o) reply] reply
  | pick_augmented s r reply :
      augment o = true ->
      drawn (shear_range o).1 (shear_range o).2 s ->
      drawn (rotation_range o).1 (rotation_range o).2 r ->
      answers (augmented_request o r s) reply ->
      pick_events o
        [EvUniform (shear_range o).1 (shear_range o).2 s;
         EvUniform (rotation_range o).1 (rotation_range o).2 r;
         EvPick (augmented_request o r s) reply] reply.

(** The calls of a loop of [n] picks: it stops at the first that raises. *)
Inductive picks (o : Minibatch) : nat -> list Event -> result (list TemplateData) -> Prop :=
  | picks_done : picks o 0 [] (inr [])
  | picks_raise n evs e :
      pick_events o evs (inl e) -> picks o (S n) evs (inl e)
  | picks_more n evs t tr res :
      pick_events o evs (inr t) -> picks o n tr res ->
      picks o (S n) (evs ++ tr)
        (match res with inl e => inl e | inr ts => inr (t :: ts) end).

(** Any number of picks, one after the other. *)
Inductive batches (o : Minibatch) : list Event -> Prop :=
  | batches_nil : batches o []
  | batches_pick evs reply tr :
      pick_events o evs reply -> batches o tr -> batches o (evs ++ tr).

(** The body of the loop of [_fetch_minibatch_data]. *)
Definition fetch_body (self : loc) (_ : Z)
    (acc : list ndarray * list ndarray * list Augmentation)
    : M D (list ndarray * list ndarray * list Augmentation) :=
  let '(pixels, weights, augmentations) := acc in
  tpl_data <- _pick_random_tpl self ;;
  ret (pixels ++ [tpl_pixels tpl_data],
       weights ++ [tpl_weights tpl_data],
       augmentations ++ [tpl_augmentation tpl_data]).

(** The loop's local lists after it picked [res]. *)
Definition extend (acc : list ndarray * list ndarray * list Augmentation)
    (res : result (list TemplateData))
    : result (list ndarray * list ndarray * list Augmentation) :=
  match res with
  | inl e => inl e
  | inr ts =>
      inr (acc.1.1 ++ map tpl_pixels ts, acc.1.2 ++ map tpl_weights ts,
           acc.2 ++ map tpl_augmentation ts)
  end.

(** The life of a sampler built with arguments [a]: the outcome of its
    construction, the world reached and every call made so far.  After a
    successful construction the caller advances it any number of times;
    between two advances the rest of the program may use the data source and
    the random source. *)
Inductive lifetime (a : Args) : result loc -> World D -> list Event -> Prop :=
  | life_new w0 :
      lifetime a (run_outcome (Minibatch_new a w0))
                 (run_world (Minibatch_new a w0))
                 (run_trace (Minibatch_new a w0))
  | life_next self w tr :
      lifetime a (inr self) w tr ->
      lifetime a (inr self) (run_world (__next__ self w))
                 (tr ++ run_trace (__next__ self w))
  | life_env self w tr d g :
      lifetime a (inr self) w tr ->
      lifetime a (inr self)
        {| heap := heap w; dataset_state := d; random_state := g |} tr.

End Behaviour.

(** ** More configurations and worlds to run the sampler on *)


Definition negative_batch_args : Args :=
  {| arg_batch_size := -3; arg_size_zxy := (1, 1, 1);
     arg_padding_zxy := (0, 0, 0); arg_augment := false;
     arg_rotation_range := (Finite (-45), Finite 45); arg_shear_range := (Finite (-5), Finite 5);
     arg_equalized := false |}.

(** The unaugmented sampler before it holds any batch, facing the second
    half of the steady script. *)
Definition unbatched_world : World Script :=
  {| heap := {[1%positive := blank plain_args [0] [1]]};
     dataset_state :=
       {| sc_channels := inr [0]; sc_labels := inr [1];
          sc_examples := [inr (flat_example 3 [1%Q]); inr (flat_example 4 [0%Q])] |};
     random_state := demo_rng |}.

(** The augmenting sampler on the synthetic image, after construction. *)
Definition grid_world : World nat :=
  run_world (Minibatch_new demo_args (empty_world 0%nat)).

(** ** Tactics *)

Ltac splits := repeat match goal with |- _ /\ _ => split end.


(** ** numpy stacking *)

Lemma np_array_nil : np_array [] = inr {| shape := [0%nat]; elems := [] |}.
Proof. reflexivity. Qed.

Lemma np_array_ok_shape (xs : list ndarray) (a : ndarray) :
  np_array xs = inr a -> leading_dim a = Some (length xs).
Proof.
  destruct xs as [|x rest]; simpl.
  - intros [= <-]. reflexivity.
  - case_decide; [|discriminate]. intros [= <-]. reflexivity.
Qed.

Lemma np_array_uniform (xs : list ndarray) (s : list nat) :
  Forall (fun y => shape y = s) xs -> exists a, np_array xs = inr a.
Proof.
  intros Hall. destruct xs as [|x rest]; simpl; [eauto|].
  apply Forall_cons in Hall as [Hx Hrest].
  rewrite decide_True; [eauto|].
  eapply Forall_impl; [exact Hrest|]. simpl. congruence.
Qed.

Lemma np_array_error (xs : list ndarray) (e : exn) :
  np_array xs = inl e -> e = ValueError "inhomogeneous shape".
Proof.
  destruct xs as [|x rest]; simpl; [discriminate|].
  case_decide; [discriminate|]. congruence.
Qed.

(** Reading row [i] of a stack of well-formed arrays gives back the i-th
    stacked array. *)
Lemma concat_uniform_row (ls : list (list Q)) (k i : nat) (l : list Q) :
  Forall (fun l' => length l' = k) ls ->
  ls !! i = Some l ->
  take k (drop (i * k) (concat ls)) = l.
Proof.
  intros Hall. revert i. induction Hall as [|l0 ls Hl0 Hall IH]; intros i Hi.
  - rewrite lookup_nil in Hi. discriminate.
  - destruct i as [|i]; simpl in *.
    + injection Hi as ->. rewrite drop_0, take_app_length'; [reflexivity|congruence].
    + rewrite <- drop_drop, drop_app_length'; [auto|congruence].
Qed.

Lemma np_index_stack (xs : list ndarray) (a x : ndarray) (i : nat) :
  np_array xs = inr a ->
  Forall well_formed xs ->
  xs !! i = Some x ->
  np_index a i = Some x.
Proof.
  intros Hstack Hwf Hi.
  destruct xs as [|x0 rest]; [rewrite lookup_nil in Hi; discriminate|].
  simpl in Hstack. case_decide as Hsame; [|discriminate].
  injection Hstack as <-.
  assert (Hall : Forall (fun y => shape y = shape x0) (x0 :: rest))
    by (constructor; [reflexivity|assumption]).
  unfold np_index. cbn [shape elems].
  rewrite decide_True by (apply lookup_lt_Some in Hi; exact Hi).
  f_equal.
  assert (Hx : shape x = shape x0).
  { rewrite Forall_lookup in Hall. exact (Hall i x Hi). }
  destruct x as [sx ex]. simpl in Hx. subst sx. f_equal.
  change (elems x0 ++ concat (map elems rest))
    with (concat (elems <$> (x0 :: rest))).
  apply concat_uniform_row.
  - rewrite Forall_fmap. rewrite Forall_forall. intros y Hy. simpl.
    rewrite Forall_forall in Hwf, Hall.
    rewrite (Hwf y Hy). unfold well_formed. rewrite (Hall y Hy). reflexivity.
  - rewrite list_lookup_fmap, Hi. reflexivity.
Qed.

(** ** The random source *)










(** ** What one run of each method does *)

Section Runs.

Context {D : Type} `{DataSource D}.

Local Open Scope py_scope.

Lemma world_eta (w : World D) :
  w = {| heap := heap w; dataset_state := dataset_state w;
         random_state := random_state w |}.
Proof. destruct w; reflexivity. Qed.

Lemma run_eta {A} (r : Run D A) :
  mk_Run (run_world r) (run_trace r) (run_outcome r) = r.
Proof. destruct r; reflexivity. Qed.

Lemma bind_ok {A B} (m : M D A) (k : A -> M D B) w w' tr a w'' tr' out :
  m w = mk_Run w' tr (inr a) ->
  k a w' = mk_Run w'' tr' out ->
  bind m k w = mk_Run w'' (tr ++ tr') out.
Proof. intros Hm Hk. unfold bind. rewrite Hm. simpl. rewrite Hk. reflexivity. Qed.

Lemma bind_pure {A B} (m : M D A) (k : A -> M D B) w w' a :
  m w = mk_Run w' [] (inr a) ->
  bind m k w = k a w'.
Proof. intros Hm. unfold bind. rewrite Hm. simpl. apply run_eta. Qed.

Lemma bind_raise {A B} (m : M D A) (k : A -> M D B) w w' tr e :
  m w = mk_Run w' tr (inl e) ->
  bind m k w = mk_Run w' tr (inl e).
Proof. intros Hm. unfold bind. rewrite Hm. reflexivity. Qed.

Lemma getattr_run (self : loc) (o : Minibatch) (w : World D) :
  heap w !! self = Some o -> getattr self w = mk_Run w [] (inr o).
Proof. intros Hself. unfold getattr. rewrite Hself. reflexivity. Qed.

Lemma setattr_run (self : loc) (f : Minibatch -> Minibatch) (o : Minibatch)
    (w : World D) :
  heap w !! self = Some o ->
  setattr self f w =
    mk_Run {| heap := <[self := f o]> (heap w); dataset_state := dataset_state w;
              random_state := random_state w |} [] (inr tt).
Proof. intros Hself. unfold setattr. rewrite Hself. reflexivity. Qed.

Lemma uniform_run (a b : pyfloat) (w : World D) :
  exists v g,
    drawn a b v /\
    uniform a b w =
      mk_Run {| heap := heap w; dataset_state := dataset_state w; random_state := g |}
             [EvUniform a b v] (inr v).
Proof.
  unfold uniform.
  destruct (random_uniform a b (random_state w)) as [v g] eqn:E.
  exists v, g. split; [|reflexivity].
  exists (random_state w). rewrite E. reflexivity.
Qed.

Lemma get_random_shear_run (self : loc) (o : Minibatch) (w : World D) :
  heap w !! self = Some o ->
  exists v g,
    drawn (shear_range o).1 (shear_range o).2 v /\
    _get_random_shear self w =
      mk_Run {| heap := heap w; dataset_state := dataset_state w; random_state := g |}
             [EvUniform (shear_range o).1 (shear_range o).2 v] (inr v).
Proof.
  intros Hself. unfold _get_random_shear.
  rewrite (bind_pure _ _ _ _ _ (getattr_run _ _ _ Hself)).
  destruct (shear_range o) as [a b]. apply uniform_run.
Qed.

Lemma get_random_rotation_run (self : loc) (o : Minibatch) (w : World D) :
  heap w !! self = Some o ->
  exists v g,
    drawn (rotation_range o).1 (rotation_range o).2 v /\
    _get_random_rotation self w =
      mk_Run {| heap := heap w; dataset_state := dataset_state w; random_state := g |}
             [EvUniform (rotation_range o).1 (rotation_range o).2 v] (inr v).
Proof.
  intros Hself. unfold _get_random_rotation.
  rewrite (bind_pure _ _ _ _ _ (getattr_run _ _ _ Hself)).
  destruct (rotation_range o) as [a b]. apply uniform_run.
Qed.

Lemma dataset_pick_run (req : Request) (w : World D) :
  exists d g reply,
    answers req reply /\
    dataset_pick req w =
      mk_Run {| heap := heap w; dataset_state := d; random_state := g |}
             [EvPick req reply] reply.
Proof.
  unfold dataset_pick, call.
  destruct (pick_random_training_template req (dataset_state w) (random_state w))
    as [[d g] reply] eqn:Hpick.
  exists d, g, reply. split; [|reflexivity].
  exists (dataset_state w), (random_state w), d, g. exact Hpick.
Qed.

Lemma pick_run (self : loc) (o : Minibatch) (w : World D) :
  heap w !! self = Some o ->
  exists d g evs reply,
    pick_events o evs reply /\
    _pick_random_tpl self w =
      mk_Run {| heap := heap w; dataset_state := d; random_state := g |} evs reply.
Proof.
  intros Hself. unfold _pick_random_tpl.
  rewrite (bind_pure _ _ _ _ _ (getattr_run _ _ _ Hself)).
  destruct (augment o) eqn:Haug; cbn [negb].
  - destruct (get_random_shear_run self o w Hself) as (s & g1 & Hs & Es).
    set (w1 := {| heap := heap w; dataset_state := dataset_state w;
                  random_state := g1 |}) in Es.
    destruct (get_random_rotation_run self o w1 Hself) as (r & g2 & Hr & Er).
    set (w2 := {| heap := heap w1; dataset_state := dataset_state w1;
                  random_state := g2 |}) in Er.
    destruct (dataset_pick_run (augmented_request o r s) w2)
      as (d & g3 & reply & Hans & Ep).
    exists d, g3. eexists. exists reply. split.
    + exact (pick_augmented o s r reply Haug Hs Hr Hans).
    + change [EvUniform (shear_range o).1 (shear_range o).2 s;
              EvUniform (rotation_range o).1 (rotation_range o).2 r;
              EvPick (augmented_request o r s) reply]
        with ([EvUniform (shear_range o).1 (shear_range o).2 s] ++
              [EvUniform (rotation_range o).1 (rotation_range o).2 r] ++
              [EvPick (augmented_request o r s) reply]).
      eapply bind_ok; [exact Es|]. eapply bind_ok; [exact Er|]. exact Ep.
  - destruct (dataset_pick_run (plain_request o) w) as (d & g & reply & Hans & Ep).
    exists d, g. eexists. exists reply. split; [|exact Ep].
    exact (pick_plain o reply Haug Hans).
Qed.

Lemma loop_run (self : loc) (o : Minibatch) (xs : list Z) :
  forall acc (w : World D),
    heap w !! self = Some o ->
    exists d g tr res,
      picks o (length xs) tr res /\
      for_each xs (fetch_body self) acc w =
        mk_Run {| heap := heap w; dataset_state := d; random_state := g |}
               tr (extend acc res).
Proof.
  induction xs as [|x xs IH]; intros [[ps ws] augs] w Hself.
  - exists (dataset_state w), (random_state w), [], (inr []).
    split; [constructor|].
    simpl. unfold ret. rewrite !app_nil_r, <- world_eta. reflexivity.
  - destruct (pick_run self o w Hself) as (d1 & g1 & evs & reply & Hev & Ep).
    destruct reply as [e|t].
    + exists d1, g1, evs, (inl e). split; [constructor; exact Hev|].
      simpl. apply bind_raise. apply bind_raise. exact Ep.
    + set (w1 := {| heap := heap w; dataset_state := d1; random_state := g1 |}) in *.
      destruct (IH (ps ++ [tpl_pixels t], ws ++ [tpl_weights t],
                    augs ++ [tpl_augmentation t]) w1 Hself)
        as (d2 & g2 & tr & res & Hpicks & Eloop).
      exists d2, g2, (evs ++ tr),
        (match res with inl e => inl e | inr ts => inr (t :: ts) end).
      split; [constructor; assumption|].
      simpl for_each. eapply bind_ok.
      * unfold fetch_body. rewrite <- (app_nil_r evs).
        eapply bind_ok; [exact Ep|]. reflexivity.
      * rewrite Eloop. f_equal.
        destruct res as [e|ts]; simpl; [reflexivity|].
        rewrite <- !app_assoc. reflexivity.
Qed.

(** [_fetch_minibatch_data]: a loop of [batch_size] picks, then the stacking
    stage on the examples picked. *)
Lemma fetch_run (self : loc) (o : Minibatch) (w : World D) :
  heap w !! self = Some o ->
  exists d g tr res,
    picks o (Z.to_nat (batch_size o)) tr res /\
    _fetch_minibatch_data self w =
      mk_Run {| heap := <[self := (after_loop o res).1]> (heap w);
                dataset_state := d; random_state := g |}
             tr (after_loop o res).2.
Proof.
  intros Hself. unfold _fetch_minibatch_data.
  rewrite (bind_pure _ _ _ _ _ (getattr_run _ _ _ Hself)).
  destruct (loop_run self o (range (batch_size o)) ([], [], []) w Hself)
    as (d & g & tr & res & Hpicks & Eloop).
  unfold range in Hpicks. rewrite length_map, length_seq in Hpicks.
  exists d, g, tr, res. split; [exact Hpicks|].
  change (for_each (range (batch_size o)) _ ([], [], []))
    with (for_each (range (batch_size o)) (fetch_body self) ([], [], [])).
  destruct res as [e|ts]; simpl in Eloop |- *.
  - rewrite insert_id by exact Hself. apply bind_raise. exact Eloop.
  - rewrite <- (app_nil_r tr). eapply bind_ok; [exact Eloop|].
    set (w1 := {| heap := heap w; dataset_state := d; random_state := g |}).
    assert (Hself1 : heap w1 !! self = Some o) by exact Hself.
    unfold stack_batch.
    destruct (np_array (map tpl_pixels ts)) as [e|p]; simpl.
    + rewrite insert_id by exact Hself. reflexivity.
    + rewrite (bind_pure (ret p) _ w1 w1 p eq_refl).
      rewrite (bind_pure _ _ _ _ _ (setattr_run _ _ _ _ Hself1)).
      destruct (np_array (map tpl_weights ts)) as [e|wt]; simpl.
      * reflexivity.
      * rewrite (bind_pure (ret wt) _ _ _ wt eq_refl).
        match goal with |- bind _ _ ?w' = _ =>
          assert (Hself2 : heap w' !! self = Some (set_pixels p o))
            by apply lookup_insert_eq;
          rewrite (bind_pure _ _ _ _ _ (setattr_run _ _ _ _ Hself2)) end.
        match goal with |- setattr _ _ ?w' = _ =>
          assert (Hself3 : heap w' !! self = Some (set_weights wt (set_pixels p o)))
            by apply lookup_insert_eq;
          rewrite (setattr_run _ _ _ _ Hself3) end.
        simpl. rewrite !insert_insert_eq. reflexivity.
Qed.

Lemma next_run (self : loc) (o : Minibatch) (w : World D) :
  heap w !! self = Some o ->
  exists d g tr res,
    picks o (Z.to_nat (batch_size o)) tr res /\
    __next__ self w =
      mk_Run {| heap := <[self := (after_loop o res).1]> (heap w);
                dataset_state := d; random_state := g |}
             tr (match (after_loop o res).2 with
                 | inl e => inl e
                 | inr _ => inr self
                 end).
Proof.
  intros Hself.
  destruct (fetch_run self o w Hself) as (d & g & tr & res & Hpicks & Ef).
  exists d, g, tr, res. split; [exact Hpicks|].
  unfold __next__.
  destruct (after_loop o res).2 as [e|[]] eqn:Hout.
  - apply bind_raise. exact Ef.
  - rewrite <- (app_nil_r tr). eapply bind_ok; [exact Ef|]. reflexivity.
Qed.

Lemma call_run {A} (method : D -> Rng -> D * Rng * result A)
    (ev : result A -> Event) (w : World D) d g reply :
  method (dataset_state w) (random_state w) = (d, g, reply) ->
  call method ev w =
    mk_Run {| heap := heap w; dataset_state := d; random_state := g |}
           [ev reply] reply.
Proof. intros E. unfold call. rewrite E. reflexivity. Qed.

Lemma new_run_channels_raise (a : Args) (w0 : World D) d1 g1 e :
  get_channels (dataset_state w0) (random_state w0) = (d1, g1, inl e) ->
  Minibatch_new a w0 =
    mk_Run {| heap := heap w0; dataset_state := d1; random_state := g1 |}
           [EvGetChannels (inl e)] (inl e).
Proof.
  intros Ec. unfold Minibatch_new.
  rewrite (bind_pure new_object _ w0 w0 _ eq_refl).
  apply bind_raise. unfold __init__. apply bind_raise.
  exact (call_run _ _ _ _ _ _ Ec).
Qed.

Lemma new_run_labels_raise (a : Args) (w0 : World D) d1 g1 chs d2 g2 e :
  get_channels (dataset_state w0) (random_state w0) = (d1, g1, inr chs) ->
  get_label_values d1 g1 = (d2, g2, inl e) ->
  Minibatch_new a w0 =
    mk_Run {| heap := heap w0; dataset_state := d2; random_state := g2 |}
           [EvGetChannels (inr chs); EvGetLabelValues (inl e)] (inl e).
Proof.
  intros Ec El. unfold Minibatch_new.
  rewrite (bind_pure new_object _ w0 w0 _ eq_refl).
  apply bind_raise. unfold __init__.
  change [EvGetChannels (inr chs); EvGetLabelValues (inl e)]
    with ([EvGetChannels (inr chs)] ++ [EvGetLabelValues (inl e)]).
  eapply bind_ok; [exact (call_run _ _ _ _ _ _ Ec)|].
  apply bind_raise.
  exact (call_run get_label_values EvGetLabelValues
           {| heap := heap w0; dataset_state := d1; random_state := g1 |}
           _ _ _ El).
Qed.

(** Construction, once the two enumerations returned: the instance is bound
    with no batch, and the rest is what [__next__] does on it. *)
Lemma new_run_ok (a : Args) (w0 : World D) d1 g1 chs d2 g2 lbs :
  get_channels (dataset_state w0) (random_state w0) = (d1, g1, inr chs) ->
  get_label_values d1 g1 = (d2, g2, inr lbs) ->
  let self := fresh (dom (heap w0)) in
  let w3 := {| heap := <[self := blank a chs lbs]> (heap w0);
               dataset_state := d2; random_state := g2 |} in
  Minibatch_new a w0 =
    mk_Run (run_world (__next__ self w3))
           (EvGetChannels (inr chs) :: EvGetLabelValues (inr lbs)
              :: run_trace (__next__ self w3))
           (run_outcome (__next__ self w3)).
Proof.
  intros Ec El self w3. unfold Minibatch_new.
  rewrite (bind_pure new_object _ w0 w0 _ eq_refl). fold self.
  assert (Einit : forall w4 tr4 out,
    _fetch_minibatch_data self w3 = mk_Run w4 tr4 out ->
    __init__ self a w0 =
      mk_Run w4 ([EvGetChannels (inr chs)] ++ [EvGetLabelValues (inr lbs)] ++ tr4) out).
  { intros w4 tr4 out Ef. unfold __init__.
    eapply bind_ok; [exact (call_run _ _ _ _ _ _ Ec)|].
    eapply bind_ok;
      [exact (call_run get_label_values EvGetLabelValues
                {| heap := heap w0; dataset_state := d1; random_state := g1 |}
                _ _ _ El)|].
    rewrite <- Ef.
    exact (bind_pure (store self _) (fun _ => _fetch_minibatch_data self)
             {| heap := heap w0; dataset_state := d2; random_state := g2 |}
             w3 tt eq_refl). }
  unfold __next__.
  destruct (_fetch_minibatch_data self w3) as [w4 tr4 [e|[]]] eqn:Ef.
  - rewrite (bind_raise _ _ _ _ _ _ Ef). simpl.
    apply bind_raise. exact (Einit _ _ _ eq_refl).
  - rewrite (bind_ok _ (fun _ => ret self) _ _ _ _ _ _ _ Ef eq_refl). simpl.
    rewrite app_nil_r.
    change (EvGetChannels (inr chs) :: EvGetLabelValues (inr lbs) :: tr4)
      with (([EvGetChannels (inr chs)] ++ [EvGetLabelValues (inr lbs)] ++ tr4)).
    rewrite <- (app_nil_r (_ ++ _ ++ tr4)).
    eapply bind_ok; [exact (Einit _ _ _ eq_refl)|]. reflexivity.
Qed.

End Runs.

(** ** What the traces of picks look like *)

Section Traces.

Context {D : Type} `{DataSource D}.

Lemma requests_app (t1 t2 : list Event) :
  requests (t1 ++ t2) = requests t1 ++ requests t2.
Proof. apply flat_map_app. Qed.

Lemma pick_replies_app (t1 t2 : list Event) :
  pick_replies (t1 ++ t2) = pick_replies t1 ++ pick_replies t2.
Proof. apply flat_map_app. Qed.

Lemma examples_app (t1 t2 : list Event) :
  examples (t1 ++ t2) = examples t1 ++ examples t2.
Proof. apply flat_map_app. Qed.

Lemma uniform_calls_app (t1 t2 : list Event) :
  uniform_calls (t1 ++ t2) = uniform_calls t1 ++ uniform_calls t2.
Proof. apply flat_map_app. Qed.

Lemma draws_app (t1 t2 : list Event) :
  draws (t1 ++ t2) = draws t1 ++ draws t2.
Proof. apply flat_map_app. Qed.

(** One pick sends exactly one request, and its reply is the pick's result. *)
Lemma pick_events_request (o : Minibatch) evs reply :
  pick_events o evs reply ->
  exists req,
    requests evs = [req] /\ pick_replies evs = [reply] /\
    answers req reply /\ last evs = Some (EvPick req reply) /\
    uniform_calls evs = angle_draws (shear_range o) (rotation_range o) req /\
    (forall ev e, In ev evs -> raised ev = Some e -> ev = EvPick req reply).
Proof.
  intros [reply' Haug Hans | s r reply' Haug Hs Hr Hans].
  - exists (plain_request o). repeat split; try reflexivity; try assumption.
    intros ev e [<-|[]] _. reflexivity.
  - exists (augmented_request o r s). repeat split; try reflexivity; try assumption.
    intros ev e [<-|[<-|[<-|[]]]] Hraised; try discriminate. reflexivity.
Qed.

(** The request of a pick is the one its branch builds, with angles that
    were drawn from the two ranges. *)
Lemma pick_events_shape (o : Minibatch) evs reply req :
  pick_events o evs reply -> In req (requests evs) ->
  if augment o
  then exists r s,
         drawn (rotation_range o).1 (rotation_range o).2 r /\
         drawn (shear_range o).1 (shear_range o).2 s /\
         req = augmented_request o r s
  else req = plain_request o.
Proof.
  intros [reply' Haug Hans | s r reply' Haug Hs Hr Hans] Hin; rewrite Haug.
  - destruct Hin as [<-|[]]. reflexivity.
  - destruct Hin as [<-|[]]. exists r, s. auto.
Qed.

Lemma pick_events_config (o o' : Minibatch) evs reply :
  config_of o = config_of o' ->
  pick_events o evs reply -> pick_events o' evs reply.
Proof.
  intros Hc Hev.
  assert (Haug : augment o = augment o') by exact (f_equal augment Hc).
  assert (Hsr : shear_range o = shear_range o') by exact (f_equal shear_range Hc).
  assert (Hrr : rotation_range o = rotation_range o')
    by exact (f_equal rotation_range Hc).
  assert (Hplain : plain_request o = plain_request o')
    by exact (f_equal plain_request Hc).
  assert (Haugr : forall r s, augmented_request o r s = augmented_request o' r s)
    by (intros r s; exact (f_equal (fun c => augmented_request c r s) Hc)).
  destruct Hev as [reply' Ha Hans | s r reply' Ha Hs Hr Hans].
  - rewrite Hplain in *. apply pick_plain; congruence.
  - rewrite Hsr, Hrr, Haugr in *. apply pick_augmented; congruence.
Qed.

Lemma batches_app (o : Minibatch) (t1 t2 : list Event) :
  batches o t1 -> batches o t2 -> batches o (t1 ++ t2).
Proof.
  induction 1 as [|evs reply tr Hev Htr IH]; intros H2; [exact H2|].
  rewrite <- app_assoc. econstructor; eauto.
Qed.

Lemma picks_batches (o : Minibatch) n tr res :
  picks o n tr res -> batches o tr.
Proof.
  induction 1 as [|n evs e Hev|n evs t tr res Hev Hpicks IH].
  - constructor.
  - rewrite <- (app_nil_r evs). econstructor; [exact Hev|constructor].
  - econstructor; eassumption.
Qed.

Lemma batches_config (o o' : Minibatch) tr :
  config_of o = config_of o' -> batches o tr -> batches o' tr.
Proof.
  intros Hc. induction 1 as [|evs reply tr Hev Htr IH]; [constructor|].
  econstructor; [exact (pick_events_config _ _ _ _ Hc Hev)|exact IH].
Qed.

(** Every request over any number of picks is of the shape of its branch. *)
Lemma batches_requests (o : Minibatch) tr req :
  batches o tr -> In req (requests tr) ->
  if augment o
  then exists r s,
         drawn (rotation_range o).1 (rotation_range o).2 r /\
         drawn (shear_range o).1 (shear_range o).2 s /\
         req = augmented_request o r s
  else req = plain_request o.
Proof.
  induction 1 as [|evs reply tr Hev Htr IH]; intros Hin; [destruct Hin|].
  rewrite requests_app in Hin. apply in_app_or in Hin as [Hin|Hin].
  - exact (pick_events_shape _ _ _ _ Hev Hin).
  - exact (IH Hin).
Qed.

(** Every pair of uniform calls belongs to one request, shear first. *)
Lemma batches_uniform_calls (o : Minibatch) tr :
  batches o tr ->
  uniform_calls tr =
    flat_map (angle_draws (shear_range o) (rotation_range o)) (requests tr).
Proof.
  induction 1 as [|evs reply tr Hev Htr IH]; [reflexivity|].
  rewrite uniform_calls_app, requests_app, flat_map_app, IH.
  destruct (pick_events_request _ _ _ Hev) as (req & -> & _ & _ & _ & -> & _).
  simpl. rewrite app_nil_r. reflexivity.
Qed.

(** The result of a loop of picks is read off the replies. *)
Lemma picks_collect (o : Minibatch) n tr res :
  picks o n tr res -> res = collect (pick_replies tr).
Proof.
  induction 1 as [|n evs e Hev|n evs t tr res Hev Hpicks IH].
  - reflexivity.
  - destruct (pick_events_request _ _ _ Hev) as (req & _ & -> & _). reflexivity.
  - rewrite pick_replies_app.
    destruct (pick_events_request _ _ _ Hev) as (req & _ & -> & _).
    simpl. rewrite <- IH. reflexivity.
Qed.

(** A loop that ends normally made exactly [n] requests and got the [n]
    examples it returns, in that order. *)
Lemma picks_ok (o : Minibatch) n tr ts :
  picks o n tr (inr ts) ->
  length ts = n /\ examples tr = ts /\ length (requests tr) = n /\
  pick_replies tr = map inr ts /\
  Forall (fun t => exists req, In req (requests tr) /\ answers req (inr t)) ts.
Proof.
  remember (inr ts) as res eqn:Hres. intros Hpicks. revert ts Hres.
  induction Hpicks as [|n evs e Hev|n evs t tr res Hev Hpicks IH];
    intros ts Hres.
  - injection Hres as <-. splits; constructor.
  - discriminate.
  - destruct res as [e|ts']; [discriminate|]. injection Hres as <-.
    destruct (IH ts' eq_refl) as (Hlen & Hex & Hreq & Hrep & Hans).
    destruct (pick_events_request _ _ _ Hev) as (req & Er & Ep & Ha & _).
    assert (Eex : examples evs = [t]).
    { clear -Hev. inversion Hev; reflexivity. }
    rewrite examples_app, requests_app, pick_replies_app, Er, Ep, Eex.
    simpl. rewrite Hrep, Hex, Hlen, Hreq. splits; try reflexivity.
    constructor.
    + exists req. split; [left; reflexivity|exact Ha].
    + eapply Forall_impl; [exact Hans|]. simpl.
      intros t' (req' & Hin & Ha'). exists req'. split; [right; exact Hin|exact Ha'].
Qed.

(** A loop never makes more than [n] requests. *)
Lemma picks_bound (o : Minibatch) n tr res :
  picks o n tr res -> (length (requests tr) <= n)%nat.
Proof.
  induction 1 as [|n evs e Hev|n evs t tr res Hev Hpicks IH].
  - reflexivity.
  - destruct (pick_events_request _ _ _ Hev) as (req & -> & _). simpl. lia.
  - rewrite requests_app, length_app.
    destruct (pick_events_request _ _ _ Hev) as (req & -> & _). simpl. lia.
Qed.

(** A call that raised is the last call of the loop, and the loop raised
    the same exception. *)
Lemma picks_raised (o : Minibatch) n tr res ev e :
  picks o n tr res -> In ev tr -> raised ev = Some e ->
  res = inl e /\ last tr = Some ev.
Proof.
  induction 1 as [|n evs e' Hev|n evs t tr res Hev Hpicks IH];
    intros Hin Hraised.
  - destruct Hin.
  - destruct (pick_events_request _ _ _ Hev) as (req & _ & _ & _ & Hlast & _ & Honly).
    rewrite (Honly ev e Hin Hraised) in Hraised |- *.
    simpl in Hraised. split; [congruence|exact Hlast].
  - apply in_app_or in Hin as [Hin|Hin].
    + destruct (pick_events_request _ _ _ Hev) as (req & _ & _ & _ & _ & _ & Honly).
      rewrite (Honly ev e Hin Hraised) in Hraised. discriminate.
    + destruct (IH Hin Hraised) as [-> Hlast]. split; [reflexivity|].
      rewrite last_app, Hlast. reflexivity.
Qed.

(** Conversely a loop that raised did so in its last call. *)
Lemma picks_raise_last (o : Minibatch) n tr e :
  picks o n tr (inl e) -> exists req, last tr = Some (EvPick req (inl e)).
Proof.
  remember (inl e) as res eqn:Hres. intros Hpicks. revert Hres.
  induction Hpicks as [|n evs e' Hev|n evs t tr res Hev Hpicks IH]; intros Hres.
  - discriminate.
  - injection Hres as ->.
    destruct (pick_events_request _ _ _ Hev) as (req & _ & _ & _ & Hlast & _).
    exists req. exact Hlast.
  - destruct res as [e'|ts]; [|discriminate]. injection Hres as ->.
    destruct (IH eq_refl) as (req & Hlast). exists req.
    rewrite last_app, Hlast. reflexivity.
Qed.

Lemma channel_calls_app (t1 t2 : list Event) :
  channel_calls (t1 ++ t2) = channel_calls t1 ++ channel_calls t2.
Proof. apply flat_map_app. Qed.

Lemma label_calls_app (t1 t2 : list Event) :
  label_calls (t1 ++ t2) = label_calls t1 ++ label_calls t2.
Proof. apply flat_map_app. Qed.

(** Picks never enumerate. *)
Lemma batches_no_enumeration (o : Minibatch) tr :
  batches o tr -> channel_calls tr = [] /\ label_calls tr = [].
Proof.
  induction 1 as [|evs reply tr Hev Htr [IHc IHl]]; [split; reflexivity|].
  rewrite channel_calls_app, label_calls_app, IHc, IHl.
  destruct Hev; split; reflexivity.
Qed.

End Traces.

Lemma collect_map_inr {A} (l : list A) : collect (map inr l) = inr l.
Proof. induction l as [|x l IH]; simpl; [|rewrite IH]; reflexivity. Qed.

(** ** The stacking stage *)

Section Stacking.

Context {D : Type} `{DataSource D}.

Lemma config_stack_batch (o : Minibatch) (ts : list TemplateData) :
  config_of (stack_batch o ts).1 = config_of o.
Proof.
  unfold stack_batch.
  destruct (np_array (map tpl_pixels ts)); [reflexivity|].
  destruct (np_array (map tpl_weights ts)); reflexivity.
Qed.

Lemma config_after_loop (o : Minibatch) (res : result (list TemplateData)) :
  config_of (after_loop o res).1 = config_of o.
Proof. destruct res; [reflexivity|apply config_stack_batch]. Qed.

(** When the stacking stage ends normally the three fields hold the stack
    of the examples. *)
Lemma after_loop_ok (o : Minibatch) (res : result (list TemplateData)) :
  (after_loop o res).2 = inr tt ->
  exists ts p w,
    res = inr ts /\
    np_array (map tpl_pixels ts) = inr p /\
    np_array (map tpl_weights ts) = inr w /\
    (after_loop o res).1 =
      set_augmentations (map tpl_augmentation ts) (set_weights w (set_pixels p o)).
Proof.
  destruct res as [e|ts]; simpl; [discriminate|].
  unfold stack_batch.
  destruct (np_array (map tpl_pixels ts)) as [e|p] eqn:Hp; simpl; [discriminate|].
  destruct (np_array (map tpl_weights ts)) as [e|w] eqn:Hw; simpl; [discriminate|].
  intros _. exists ts, p, w. splits; auto.
Qed.

Lemma stacked_ready (o : Minibatch) (ts : list TemplateData) (p w : ndarray) :
  np_array (map tpl_pixels ts) = inr p ->
  np_array (map tpl_weights ts) = inr w ->
  batch_ready (Z.of_nat (length ts))
    (set_augmentations (map tpl_augmentation ts) (set_weights w (set_pixels p o))).
Proof.
  intros Hp Hw. exists p, w, (map tpl_augmentation ts). simpl.
  rewrite (np_array_ok_shape _ _ Hp), (np_array_ok_shape _ _ Hw), !length_map.
  splits; reflexivity.
Qed.

(** Under the data source contract the examples of one loop always stack. *)
Lemma picks_stack (o : Minibatch) n tr ts :
  uniformly_shaped -> picks o n tr (inr ts) ->
  exists p w,
    np_array (map tpl_pixels ts) = inr p /\ np_array (map tpl_weights ts) = inr w.
Proof.
  intros Hu Hpicks.
  destruct (picks_ok _ _ _ _ Hpicks) as (_ & _ & _ & _ & Hans).
  pose proof (picks_batches _ _ _ _ Hpicks) as Hb.
  assert (Hgeo : Forall (fun t => exists req,
             same_geometry req (plain_request o) /\ answers req (inr t)) ts).
  { eapply Forall_impl; [exact Hans|]. simpl.
    intros t (req & Hin & Ha). exists req. split; [|exact Ha].
    pose proof (batches_requests _ _ _ Hb Hin) as Hreq.
    destruct (augment o).
    - destruct Hreq as (r & s & _ & _ & ->). repeat split.
    - subst req. repeat split. }
  destruct ts as [|t0 ts0]; [simpl; eauto|].
  apply Forall_cons in Hgeo as Hgeo0. destruct Hgeo0 as [(req0 & Hg0 & Ha0) _].
  assert (Hshapes : Forall (fun t =>
             shape (tpl_pixels t) = shape (tpl_pixels t0) /\
             shape (tpl_weights t) = shape (tpl_weights t0)) (t0 :: ts0)).
  { eapply Forall_impl; [exact Hgeo|]. simpl.
    intros t (req & Hg & Ha). apply (Hu req req0 t t0); [|exact Ha|exact Ha0].
    destruct Hg as (? & ? & ? & ?), Hg0 as (? & ? & ? & ?).
    repeat split; congruence. }
  destruct (np_array_uniform (map tpl_pixels (t0 :: ts0)) (shape (tpl_pixels t0)))
    as [p Hp].
  { change (map tpl_pixels (t0 :: ts0)) with (tpl_pixels <$> (t0 :: ts0)).
    rewrite Forall_fmap.
    eapply Forall_impl; [exact Hshapes|]. simpl. tauto. }
  destruct (np_array_uniform (map tpl_weights (t0 :: ts0)) (shape (tpl_weights t0)))
    as [w Hw].
  { change (map tpl_weights (t0 :: ts0)) with (tpl_weights <$> (t0 :: ts0)).
    rewrite Forall_fmap.
    eapply Forall_impl; [exact Hshapes|]. simpl. tauto. }
  eauto.
Qed.

(** One batch fetch keeps or establishes a full batch. *)
Lemma after_loop_ready (o : Minibatch) n tr res :
  uniformly_shaped -> picks o n tr res ->
  batch_ready (Z.of_nat n) o \/ (after_loop o res).2 = inr tt ->
  batch_ready (Z.of_nat n) (after_loop o res).1.
Proof.
  intros Hu Hpicks Hor.
  destruct res as [e|ts].
  - destruct Hor as [Hready|Hok]; [exact Hready|discriminate].
  - destruct (picks_stack _ _ _ _ Hu Hpicks) as (p & w & Hp & Hw).
    destruct (picks_ok _ _ _ _ Hpicks) as (<- & _).
    simpl. unfold stack_batch. rewrite Hp, Hw. simpl.
    exact (stacked_ready o ts p w Hp Hw).
Qed.

End Stacking.

(** ** One advance, one construction *)

Section Advance.

Context {D : Type} `{DataSource D}.

(** An advance that returns stored the stack of the examples it fetched. *)
Lemma next_ok (self : loc) (o : Minibatch) (w : World D) (v : loc) :
  heap w !! self = Some o ->
  run_outcome (__next__ self w) = inr v ->
  v = self /\
  pick_replies (run_trace (__next__ self w))
    = map inr (examples (run_trace (__next__ self w))) /\
  length (examples (run_trace (__next__ self w))) = Z.to_nat (batch_size o) /\
  length (requests (run_trace (__next__ self w))) = Z.to_nat (batch_size o) /\
  exists p wt,
    np_array (map tpl_pixels (examples (run_trace (__next__ self w)))) = inr p /\
    np_array (map tpl_weights (examples (run_trace (__next__ self w)))) = inr wt /\
    heap (run_world (__next__ self w)) !! self =
      Some (set_augmentations
              (map tpl_augmentation (examples (run_trace (__next__ self w))))
              (set_weights wt (set_pixels p o))).
Proof.
  intros Hself Hout.
  destruct (next_run self o w Hself) as (d & g & tr & res & Hpicks & E).
  rewrite E in Hout |- *. cbn [run_trace run_world run_outcome heap] in *.
  destruct (after_loop o res).2 as [e|[]] eqn:Hloop; [discriminate|].
  injection Hout as <-.
  destruct (after_loop_ok o res Hloop) as (ts & p & wt & -> & Hp & Hw & Hobj).
  destruct (picks_ok _ _ _ _ Hpicks) as (Hlen & Hex & Hreq & Hrep & _).
  rewrite Hex. splits; try assumption; try reflexivity.
  exists p, wt. splits; try assumption.
  rewrite lookup_insert_eq, Hobj. reflexivity.
Qed.

(** The error policy holds of a loop of picks followed by stacking. *)
Lemma fetch_propagates {A} (o : Minibatch) n tr res (v : A) :
  picks o n tr res ->
  propagates tr (match (after_loop o res).2 with
                 | inl e => inl e
                 | inr _ => inr v
                 end).
Proof.
  intros Hpicks. pose proof (picks_collect _ _ _ _ Hpicks) as Hres.
  unfold propagates. splits.
  - intros ev e Hin Hraised.
    destruct (picks_raised _ _ _ _ _ _ Hpicks Hin Hraised) as [-> Hlast].
    auto.
  - intros ts e Hrep Hp. rewrite Hrep, collect_map_inr in Hres. subst res.
    simpl. unfold stack_batch. rewrite Hp. reflexivity.
  - intros ts p e Hrep Hp Hw. rewrite Hrep, collect_map_inr in Hres. subst res.
    simpl. unfold stack_batch. rewrite Hp, Hw. reflexivity.
  - intros e Hout. destruct res as [e'|ts].
    + simpl in Hout. injection Hout as ->. left.
      destruct (picks_raise_last _ _ _ _ Hpicks) as (req & Hlast).
      exists (EvPick req (inl e)). auto.
    + right. exists ts.
      destruct (picks_ok _ _ _ _ Hpicks) as (_ & _ & _ & Hrep & _).
      split; [exact Hrep|]. simpl in Hout. unfold stack_batch in Hout.
      destruct (np_array (map tpl_pixels ts)) as [e1|p]; simpl in Hout.
      * left. congruence.
      * right. split; [eauto|].
        destruct (np_array (map tpl_weights ts)) as [e2|wt]; simpl in Hout;
          congruence.
Qed.

(** Construction is the two enumerations, then the loop and the stacking of
    one batch on the new instance. *)
Lemma new_run_cases (a : Args) (w0 : World D) :
  (exists e,
     run_trace (Minibatch_new a w0) = [EvGetChannels (inl e)] /\
     run_outcome (Minibatch_new a w0) = inl e) \/
  (exists chs e,
     run_trace (Minibatch_new a w0)
       = [EvGetChannels (inr chs); EvGetLabelValues (inl e)] /\
     run_outcome (Minibatch_new a w0) = inl e) \/
  (exists chs lbs tr res,
     picks (blank a chs lbs) (Z.to_nat (arg_batch_size a)) tr res /\
     run_trace (Minibatch_new a w0)
       = EvGetChannels (inr chs) :: EvGetLabelValues (inr lbs) :: tr /\
     run_outcome (Minibatch_new a w0)
       = match (after_loop (blank a chs lbs) res).2 with
         | inl e => inl e
         | inr _ => inr (fresh (dom (heap w0)))
         end).
Proof.
  destruct (get_channels (dataset_state w0) (random_state w0))
    as [[d1 g1] [e|chs]] eqn:Ec.
  { left. exists e. rewrite (new_run_channels_raise a w0 _ _ _ Ec). auto. }
  destruct (get_label_values d1 g1) as [[d2 g2] [e|lbs]] eqn:El.
  { right. left. exists chs, e.
    rewrite (new_run_labels_raise a w0 _ _ _ _ _ _ Ec El). auto. }
  right. right. rewrite (new_run_ok a w0 _ _ _ _ _ _ Ec El).
  set (self := fresh (dom (heap w0))).
  set (w3 := {| heap := <[self := blank a chs lbs]> (heap w0);
                dataset_state := d2; random_state := g2 |}).
  assert (Hself : heap w3 !! self = Some (blank a chs lbs))
    by apply lookup_insert_eq.
  destruct (next_run self _ w3 Hself) as (d & g & tr & res & Hpicks & ->).
  exists chs, lbs, tr, res. auto.
Qed.

(** The calls of picks are determined by the instance, the values drawn and
    the replies. *)
Lemma batches_trace_from (o : Minibatch) tr :
  batches o tr -> tr = trace_from o (draws tr) (pick_replies tr).
Proof.
  induction 1 as [|evs reply tr Hev Htr IH]; [reflexivity|].
  rewrite draws_app, pick_replies_app.
  destruct Hev as [reply Haug Hans | s r reply Haug Hs Hr Hans];
    simpl; rewrite Haug, <- IH; reflexivity.
Qed.

End Advance.

(** ** The life of a sampler *)

Section Lifetime.

Context {D : Type} `{DataSource D}.

(** The calls of a whole life: the two enumerations, then picks sent by an
    instance whose configuration never changes. *)
Lemma lifetime_shape (a : Args) st (w : World D) tr :
  lifetime a st w tr ->
  (exists e, st = inl e /\ tr = [EvGetChannels (inl e)]) \/
  (exists chs e,
     st = inl e /\ tr = [EvGetChannels (inr chs); EvGetLabelValues (inl e)]) \/
  (exists chs lbs body,
     tr = EvGetChannels (inr chs) :: EvGetLabelValues (inr lbs) :: body /\
     batches (blank a chs lbs) body /\
     forall self, st = inr self ->
       exists o, heap w !! self = Some o /\ config_of o = blank a chs lbs).
Proof.
  induction 1 as [w0|self w tr Hlife IH|self w tr d g Hlife IH].
  - destruct (get_channels (dataset_state w0) (random_state w0))
      as [[d1 g1] [e|chs]] eqn:Ec.
    { left. exists e. rewrite (new_run_channels_raise a w0 _ _ _ Ec). auto. }
    destruct (get_label_values d1 g1) as [[d2 g2] [e|lbs]] eqn:El.
    { right. left. exists chs, e.
      rewrite (new_run_labels_raise a w0 _ _ _ _ _ _ Ec El). auto. }
    right. right. rewrite (new_run_ok a w0 _ _ _ _ _ _ Ec El).
    set (self := fresh (dom (heap w0))).
    set (w3 := {| heap := <[self := blank a chs lbs]> (heap w0);
                  dataset_state := d2; random_state := g2 |}).
    assert (Hself : heap w3 !! self = Some (blank a chs lbs))
      by apply lookup_insert_eq.
    destruct (next_run self _ w3 Hself) as (d & g & tr & res & Hpicks & ->).
    cbn [run_world run_trace run_outcome].
    exists chs, lbs, tr. splits; [reflexivity|exact (picks_batches _ _ _ _ Hpicks)|].
    intros self' Heq.
    destruct (after_loop (blank a chs lbs) res).2 as [e|u]; [discriminate|].
    injection Heq as <-. eexists. split; [apply lookup_insert_eq|].
    apply config_after_loop.
  - destruct IH as [(e & He & _)|[(chs & e & He & _)|(chs & lbs & body & -> & Hb & Hobj)]];
      try discriminate.
    right. right.
    destruct (Hobj self eq_refl) as (o & Hself & Hc).
    destruct (next_run self o w Hself) as (d & g & tr' & res & Hpicks & ->).
    cbn [run_world run_trace run_outcome heap].
    exists chs, lbs, (body ++ tr'). splits; [reflexivity| |].
    + apply batches_app; [exact Hb|].
      apply (batches_config o); [rewrite Hc; reflexivity|].
      exact (picks_batches _ _ _ _ Hpicks).
    + intros self' [= <-]. eexists. split; [apply lookup_insert_eq|].
      rewrite config_after_loop. exact Hc.
  - destruct IH as [(e & He & _)|[(chs & e & He & _)|(chs & lbs & body & -> & Hb & Hobj)]];
      try discriminate.
    right. right. exists chs, lbs, body. splits; [reflexivity|exact Hb|exact Hobj].
Qed.

End Lifetime.

(** ** The synthetic data source honours the contract *)

Lemma grid_uniformly_shaped : uniformly_shaped (D := nat).
Proof.
  intros r1 r2 t1 t2 (Hsize & Hch & Hpad & Hlb)
    (d1 & g1 & d1' & g1' & E1) (d2 & g2 & d2' & g2' & E2).
  simpl in E1, E2. unfold grid_pick in E1, E2.
  destruct (random_random g1) as [v1 h1], (random_random g2) as [v2 h2].
  injection E1 as _ _ <-. injection E2 as _ _ <-. simpl.
  rewrite Hsize, Hch, Hpad, Hlb. split; reflexivity.
Qed.

(** ** Properties of the sampler *)

Section Claims.

Context {D : Type} `{DataSource D}.

(** C1: with a data source that returns uniformly shaped examples and a
    positive batch_size, after construction and after every advance the
    pixel batch and the weight batch have leading dimension batch_size and
    the augmentation sequence has length batch_size. *)
Theorem batch_dimensions (a : Args) (self : loc) (w : World D) (tr : list Event) :
  uniformly_shaped ->
  0 < arg_batch_size a ->
  lifetime a (inr self) w tr ->
  exists o p wt augs,
    heap w !! self = Some o /\
    pixels o = Some p /\ weights o = Some wt /\ augmentations o = Some augs /\
    Z.of_nat <$> leading_dim p = Some (arg_batch_size a) /\
    Z.of_nat <$> leading_dim wt = Some (arg_batch_size a) /\
    Z.of_nat (length augs) = arg_batch_size a.
Proof.
  intros Hu Hpos Hlife.
  cut (exists o, heap w !! self = Some o /\ batch_ready (arg_batch_size a) o).
  { intros (o & Hself & p & wt & augs & Hready). exists o, p, wt, augs. tauto. }
  assert (Hn : Z.of_nat (Z.to_nat (arg_batch_size a)) = arg_batch_size a)
    by (apply Z2Nat.id; lia).
  remember (inr self) as st eqn:Hst. revert Hst.
  induction Hlife as [w0|self' w tr Hlife IH|self' w tr d g Hlife IH]; intros Hst.
  - destruct (get_channels (dataset_state w0) (random_state w0))
      as [[d1 g1] [e|chs]] eqn:Ec.
    { rewrite (new_run_channels_raise a w0 _ _ _ Ec) in Hst. discriminate. }
    destruct (get_label_values d1 g1) as [[d2 g2] [e|lbs]] eqn:El.
    { rewrite (new_run_labels_raise a w0 _ _ _ _ _ _ Ec El) in Hst. discriminate. }
    rewrite (new_run_ok a w0 _ _ _ _ _ _ Ec El) in Hst |- *.
    set (new := fresh (dom (heap w0))) in *.
    set (w3 := {| heap := <[new := blank a chs lbs]> (heap w0);
                  dataset_state := d2; random_state := g2 |}) in *.
    assert (Hnew : heap w3 !! new = Some (blank a chs lbs))
      by apply lookup_insert_eq.
    destruct (next_run new _ w3 Hnew) as (d & g & tr & res & Hpicks & E).
    rewrite E in Hst |- *. cbn [run_world run_outcome heap] in Hst |- *.
    destruct (after_loop (blank a chs lbs) res).2 as [e|[]] eqn:Hout;
      [discriminate|].
    injection Hst as ->. eexists. split; [apply lookup_insert_eq|].
    rewrite <- Hn.
    apply (after_loop_ready _ _ _ _ Hu Hpicks). right. exact Hout.
  - injection Hst as ->.
    destruct (IH eq_refl) as (o & Hself & Hready).
    destruct (lifetime_shape _ _ _ _ Hlife)
      as [(e & He & _)|[(chs & e & He & _)|(chs & lbs & body & _ & _ & Hobj)]];
      try discriminate.
    destruct (Hobj self eq_refl) as (o' & Hself' & Hc).
    assert (o' = o) by congruence. subst o'.
    assert (Hbs : batch_size o = arg_batch_size a)
      by exact (f_equal batch_size Hc).
    destruct (next_run self o w Hself) as (d & g & tr' & res & Hpicks & ->).
    cbn [run_world heap]. eexists. split; [apply lookup_insert_eq|].
    rewrite Hbs in Hpicks. rewrite <- Hn.
    apply (after_loop_ready _ _ _ _ Hu Hpicks). left. rewrite Hn. exact Hready.
  - injection Hst as ->. exact (IH eq_refl).
Qed.

(** C2 (amended): when every fetch of an advance succeeded and the stacking
    stage fails, the advance raises; if it is the pixel stacking that fails
    the sampler is left exactly as it was before the advance, all three
    batch fields included; if the pixel stacking succeeds and the weight
    stacking fails, the weight batch and the augmentation sequence are as
    they were before the advance while the pixel field already holds the
    new pixel stack. *)
Theorem stacking_failure_state (self : loc) (o : Minibatch) (w : World D)
    (ts : list TemplateData) :
  heap w !! self = Some o ->
  pick_replies (run_trace (__next__ self w)) = map inr ts ->
  (forall e, np_array (map tpl_pixels ts) = inl e ->
     run_outcome (__next__ self w) = inl e /\
     heap (run_world (__next__ self w)) !! self = Some o) /\
  (forall p e,
     np_array (map tpl_pixels ts) = inr p ->
     np_array (map tpl_weights ts) = inl e ->
     run_outcome (__next__ self w) = inl e /\
     exists o',
       heap (run_world (__next__ self w)) !! self = Some o' /\
       pixels o' = Some p /\ weights o' = weights o /\
       augmentations o' = augmentations o).
Proof.
  intros Hself Hreplies.
  destruct (next_run self o w Hself) as (d & g & tr & res & Hpicks & E).
  rewrite E in Hreplies |- *. cbn [run_trace run_world run_outcome heap] in *.
  pose proof (picks_collect _ _ _ _ Hpicks) as Hres.
  rewrite Hreplies, collect_map_inr in Hres. subst res.
  rewrite lookup_insert_eq. simpl. unfold stack_batch. split.
  - intros e Hp. rewrite Hp. simpl. auto.
  - intros p e Hp Hw. rewrite Hp, Hw. simpl. split; [reflexivity|].
    exists (set_pixels p o). auto.
Qed.


(** C4: a sampler constructed with augment=False sends, during construction
    and during every advance, only requests that carry the output geometry,
    the channel set and the label set it enumerated, the padding and the
    equalized flag, and no rotation or shear angle (no angle is even
    drawn). *)
Theorem unaugmented_requests (a : Args) st (w : World D) (tr : list Event) :
  lifetime a st w tr ->
  arg_augment a = false ->
  Forall (fun req =>
            rq_size_zxy req = arg_size_zxy a /\
            tr !! 0%nat = Some (EvGetChannels (inr (rq_channels req))) /\
            tr !! 1%nat = Some (EvGetLabelValues (inr (rq_labels req))) /\
            rq_pixel_padding req = arg_padding_zxy a /\
            rq_equalized req = arg_equalized a /\
            rq_rotation_angle req = None /\ rq_shear_angle req = None)
         (requests tr) /\
  uniform_calls tr = [].
Proof.
  intros Hlife Haug.
  destruct (lifetime_shape _ _ _ _ Hlife)
    as [(e & _ & ->)|[(chs & e & _ & ->)|(chs & lbs & body & -> & Hb & _)]].
  - split; [constructor|reflexivity].
  - split; [constructor|reflexivity].
  - change (requests (EvGetChannels (inr chs) :: EvGetLabelValues (inr lbs) :: body))
      with (requests body).
    change (uniform_calls (EvGetChannels (inr chs) :: EvGetLabelValues (inr lbs) :: body))
      with (uniform_calls body).
    assert (Hplain : Forall (fun req => req = plain_request (blank a chs lbs))
                       (requests body)).
    { apply List.Forall_forall. intros req Hin.
      pose proof (batches_requests _ _ _ Hb Hin) as Hreq.
      simpl in Hreq. rewrite Haug in Hreq. exact Hreq. }
    split.
    + eapply Forall_impl; [exact Hplain|]. simpl. intros req ->.
      splits; reflexivity.
    + rewrite (batches_uniform_calls _ _ Hb).
      induction Hplain as [|req reqs -> _ IH]; [reflexivity|exact IH].
Qed.

(** C5: an advance never makes more than batch_size single-example
    fetches, and makes exactly batch_size of them, one after the other,
    unless one raises.  An advance that returns built the pixel batch, the
    weight batch and the augmentation sequence from the fetched examples in
    fetch order, so that index i of each describes the i-th fetched example,
    and the value it returns is the sampler object itself. *)
Theorem advance_lockstep (self : loc) (o : Minibatch) (w : World D) :
  heap w !! self = Some o ->
  (length (requests (run_trace (__next__ self w))) <= Z.to_nat (batch_size o))%nat /\
  (forall ts,
     pick_replies (run_trace (__next__ self w)) = map inr ts ->
     length (requests (run_trace (__next__ self w))) = Z.to_nat (batch_size o) /\
     length ts = Z.to_nat (batch_size o)) /\
  (forall v,
     run_outcome (__next__ self w) = inr v ->
     v = self /\
     pick_replies (run_trace (__next__ self w))
       = map inr (examples (run_trace (__next__ self w))) /\
     (0 <= batch_size o ->
      Z.of_nat (length (examples (run_trace (__next__ self w)))) = batch_size o) /\
     exists o' p wt augs,
       heap (run_world (__next__ self w)) !! self = Some o' /\
       pixels o' = Some p /\ weights o' = Some wt /\ augmentations o' = Some augs /\
       np_array (map tpl_pixels (examples (run_trace (__next__ self w)))) = inr p /\
       np_array (map tpl_weights (examples (run_trace (__next__ self w)))) = inr wt /\
       forall i t,
         examples (run_trace (__next__ self w)) !! i = Some t ->
         augs !! i = Some (tpl_augmentation t) /\
         (Forall example_well_formed (examples (run_trace (__next__ self w))) ->
          np_index p i = Some (tpl_pixels t) /\
          np_index wt i = Some (tpl_weights t))).
Proof.
  intros Hself. splits.
  - destruct (next_run self o w Hself) as (d & g & tr & res & Hpicks & ->).
    exact (picks_bound _ _ _ _ Hpicks).
  - intros ts Hrep.
    destruct (next_run self o w Hself) as (d & g & tr & res & Hpicks & E).
    rewrite E in Hrep |- *. cbn [run_trace] in *.
    pose proof (picks_collect _ _ _ _ Hpicks) as Hres.
    rewrite Hrep, collect_map_inr in Hres. subst res.
    destruct (picks_ok _ _ _ _ Hpicks) as (Hlen & _ & Hreq & _). auto.
  - intros v Hout.
    destruct (next_ok self o w v Hself Hout)
      as (Hv & Hrep & Hlen & Hreq & p & wt & Hp & Hw & Hobj).
    set (ts := examples (run_trace (__next__ self w))) in *.
    splits; try assumption.
    + intros Hpos. rewrite Hlen. apply Z2Nat.id. exact Hpos.
    + eexists. exists p, wt, (map tpl_augmentation ts).
      splits; try exact Hobj; try reflexivity; try assumption.
      intros i t Hi. split.
      * change (map tpl_augmentation ts) with (tpl_augmentation <$> ts).
        rewrite list_lookup_fmap, Hi. reflexivity.
      * intros Hwf. split.
        -- apply (np_index_stack (map tpl_pixels ts) p); [exact Hp| |].
           ++ change (map tpl_pixels ts) with (tpl_pixels <$> ts).
              rewrite Forall_fmap. eapply Forall_impl; [exact Hwf|].
              intros t' [Hwp _]. exact Hwp.
           ++ change (map tpl_pixels ts) with (tpl_pixels <$> ts).
              rewrite list_lookup_fmap, Hi. reflexivity.
        -- apply (np_index_stack (map tpl_weights ts) wt); [exact Hw| |].
           ++ change (map tpl_weights ts) with (tpl_weights <$> ts).
              rewrite Forall_fmap. eapply Forall_impl; [exact Hwf|].
              intros t' [_ Hww]. exact Hww.
           ++ change (map tpl_weights ts) with (tpl_weights <$> ts).
              rewrite list_lookup_fmap, Hi. reflexivity.
Qed.

(** C6: once the two enumerations returned, construction has asked the
    data source for the channels and then for the labels, bound a new
    instance configured with them, and then done exactly what one advance
    does on that instance (same calls, same final world, same outcome): it
    makes at most batch_size single-example fetches, exactly batch_size
    unless one raises, and when it returns the pixel batch, the weight batch
    and the augmentation sequence of the new sampler are the stacks of the
    examples fetched, in fetch order. *)
Theorem construction_fetches_first_batch (a : Args) (w0 : World D)
    d1 g1 chs d2 g2 lbs :
  get_channels (dataset_state w0) (random_state w0) = (d1, g1, inr chs) ->
  get_label_values d1 g1 = (d2, g2, inr lbs) ->
  heap w0 !! fresh (dom (heap w0)) = None /\
  Minibatch_new a w0 =
    mk_Run
      (run_world (__next__ (fresh (dom (heap w0)))
         {| heap := <[fresh (dom (heap w0)) := blank a chs lbs]> (heap w0);
            dataset_state := d2; random_state := g2 |}))
      (EvGetChannels (inr chs) :: EvGetLabelValues (inr lbs) ::
       run_trace (__next__ (fresh (dom (heap w0)))
         {| heap := <[fresh (dom (heap w0)) := blank a chs lbs]> (heap w0);
            dataset_state := d2; random_state := g2 |}))
      (run_outcome (__next__ (fresh (dom (heap w0)))
         {| heap := <[fresh (dom (heap w0)) := blank a chs lbs]> (heap w0);
            dataset_state := d2; random_state := g2 |})) /\
  exists body,
    run_trace (Minibatch_new a w0)
      = EvGetChannels (inr chs) :: EvGetLabelValues (inr lbs) :: body /\
    channel_calls body = [] /\ label_calls body = [] /\
    (length (requests body) <= Z.to_nat (arg_batch_size a))%nat /\
    (forall ts, pick_replies body = map inr ts ->
       length (requests body) = Z.to_nat (arg_batch_size a) /\
       length ts = Z.to_nat (arg_batch_size a)) /\
    (forall v,
       run_outcome (Minibatch_new a w0) = inr v ->
       v = fresh (dom (heap w0)) /\
       pick_replies body = map inr (examples body) /\
       length (examples body) = Z.to_nat (arg_batch_size a) /\
       exists p wt,
         np_array (map tpl_pixels (examples body)) = inr p /\
         np_array (map tpl_weights (examples body)) = inr wt /\
         heap (run_world (Minibatch_new a w0)) !! v =
           Some {| padding_zxy := arg_padding_zxy a; size_zxy := arg_size_zxy a;
                   channels := chs; labels := lbs;
                   batch_size := arg_batch_size a; equalized := arg_equalized a;
                   augment := arg_augment a;
                   rotation_range := arg_rotation_range a;
                   shear_range := arg_shear_range a;
                   pixels := Some p; weights := Some wt;
                   augmentations := Some (map tpl_augmentation (examples body)) |}).
Proof.
  intros Ec El. split; [apply not_elem_of_dom; apply is_fresh|].
  split; [exact (new_run_ok a w0 _ _ _ _ _ _ Ec El)|].
  rewrite (new_run_ok a w0 _ _ _ _ _ _ Ec El).
  set (self := fresh (dom (heap w0))).
  set (w3 := {| heap := <[self := blank a chs lbs]> (heap w0);
                dataset_state := d2; random_state := g2 |}).
  assert (Hself : heap w3 !! self = Some (blank a chs lbs))
    by apply lookup_insert_eq.
  cbn [run_trace run_world run_outcome].
  exists (run_trace (__next__ self w3)). split; [reflexivity|].
  destruct (next_run self _ w3 Hself) as (d & g & tr & res & Hpicks & E).
  pose proof (picks_collect _ _ _ _ Hpicks) as Hres.
  destruct (batches_no_enumeration _ _ (picks_batches _ _ _ _ Hpicks)) as [Hc Hl].
  splits.
  - rewrite E. exact Hc.
  - rewrite E. exact Hl.
  - rewrite E. exact (picks_bound _ _ _ _ Hpicks).
  - intros ts Hrep. rewrite E in Hrep |- *. cbn [run_trace] in *.
    rewrite Hrep, collect_map_inr in Hres. subst res.
    destruct (picks_ok _ _ _ _ Hpicks) as (Hlen & _ & Hreq & _). auto.
  - intros v Hout.
    destruct (next_ok self _ w3 v Hself Hout)
      as (Hv & Hrep & Hlen & _ & p & wt & Hp & Hw & Hobj).
    splits; try assumption.
    exists p, wt. splits; try assumption.
    rewrite Hv. exact Hobj.
Qed.

(** C7: in every advance and in every construction, an exception raised by
    a call of the data source or by the array stacking reaches the caller
    unchanged: the failing call is the last call made (no retry), the run
    raises that very exception (no suppression, no local handling), and the
    sampler raises nothing of its own. *)
Theorem errors_propagate :
  (forall (self : loc) (o : Minibatch) (w : World D),
     heap w !! self = Some o ->
     propagates (run_trace (__next__ self w)) (run_outcome (__next__ self w))) /\
  (forall (a : Args) (w0 : World D),
     propagates (run_trace (Minibatch_new a w0))
                (run_outcome (Minibatch_new a w0))).
Proof.
  split.
  - intros self o w Hself.
    destruct (next_run self o w Hself) as (d & g & tr & res & Hpicks & ->).
    exact (fetch_propagates o _ tr res self Hpicks).
  - intros a w0.
    destruct (new_run_cases a w0)
      as [(e & -> & ->)|[(chs & e & -> & ->)|(chs & lbs & tr & res & Hpicks & -> & ->)]].
    + unfold propagates. splits.
      * intros ev e' [<-|[]] [= <-]. auto.
      * intros [|t ts] e' Hrep Hp; [discriminate Hp|discriminate Hrep].
      * intros [|t ts] p e' Hrep _ Hw; [discriminate Hw|discriminate Hrep].
      * intros e' [= <-]. left. exists (EvGetChannels (inl e)). auto.
    + unfold propagates. splits.
      * intros ev e' [<-|[<-|[]]] Hraised; [discriminate|].
        injection Hraised as <-. auto.
      * intros [|t ts] e' Hrep Hp; [discriminate Hp|discriminate Hrep].
      * intros [|t ts] p e' Hrep _ Hw; [discriminate Hw|discriminate Hrep].
      * intros e' [= <-]. left. exists (EvGetLabelValues (inl e)). auto.
    + pose proof (fetch_propagates _ _ tr res (fresh (dom (heap w0))) Hpicks)
        as (Hcall & Hpix & Hwei & Honly).
      set (out := match (after_loop (blank a chs lbs) res).2 with
                  | inl e => inl e
                  | inr _ => inr (fresh (dom (heap w0)))
                  end) in *.
      unfold propagates. splits.
      * intros ev e [<-|[<-|Hin]] Hraised; try discriminate.
        destruct (Hcall ev e Hin Hraised) as [Hout Hlast]. split; [exact Hout|].
        change (EvGetChannels (inr chs) :: EvGetLabelValues (inr lbs) :: tr)
          with ([EvGetChannels (inr chs); EvGetLabelValues (inr lbs)] ++ tr).
        rewrite last_app, Hlast. reflexivity.
      * exact Hpix.
      * exact Hwei.
      * intros e Hout. destruct (Honly e Hout) as [(ev & Hlast & Hraised)|Hstack].
        -- left. exists ev. split; [|exact Hraised].
           change (EvGetChannels (inr chs) :: EvGetLabelValues (inr lbs) :: tr)
             with ([EvGetChannels (inr chs); EvGetLabelValues (inr lbs)] ++ tr).
           rewrite last_app, Hlast. reflexivity.
        -- right. exact Hstack.
Qed.

(** C8: the equalized flag given at construction is the one every request
    carries, during construction and during every advance, whether
    augmentation is on or off; and the sampler makes no selection of its
    own: an advance that returns stored every example the data source
    returned, in the order returned. *)
Theorem equalized_forwarded :
  (forall (a : Args) st (w : World D) (tr : list Event),
     lifetime a st w tr ->
     Forall (fun req => rq_equalized req = arg_equalized a) (requests tr)) /\
  (forall (self : loc) (o : Minibatch) (w : World D) (v : loc),
     heap w !! self = Some o ->
     run_outcome (__next__ self w) = inr v ->
     length (examples (run_trace (__next__ self w)))
       = length (requests (run_trace (__next__ self w))) /\
     exists o' p wt,
       heap (run_world (__next__ self w)) !! self = Some o' /\
       np_array (map tpl_pixels (examples (run_trace (__next__ self w)))) = inr p /\
       np_array (map tpl_weights (examples (run_trace (__next__ self w)))) = inr wt /\
       pixels o' = Some p /\ weights o' = Some wt /\
       augmentations o'
         = Some (map tpl_augmentation (examples (run_trace (__next__ self w))))).
Proof.
  split.
  - intros a st w tr Hlife.
    destruct (lifetime_shape _ _ _ _ Hlife)
      as [(e & _ & ->)|[(chs & e & _ & ->)|(chs & lbs & body & -> & Hb & _)]];
      [constructor|constructor|].
    change (requests (EvGetChannels (inr chs) :: EvGetLabelValues (inr lbs) :: body))
      with (requests body).
    apply List.Forall_forall. intros req Hin.
    pose proof (batches_requests _ _ _ Hb Hin) as Hreq.
    destruct (augment (blank a chs lbs)).
    + destruct Hreq as (r & s & _ & _ & ->). reflexivity.
    + subst req. reflexivity.
  - intros self o w v Hself Hout.
    destruct (next_ok self o w v Hself Hout)
      as (_ & _ & Hlen & Hreq & p & wt & Hp & Hw & Hobj).
    split; [congruence|].
    eexists. exists p, wt. splits; try exact Hobj; try assumption; reflexivity.
Qed.

(** C9: two runs of one advance on the same sampler in which the random
    source yields the same values and the data source the same replies
    cannot be told apart: they make the same calls, end the same way and
    leave the same instance, hence the same pixel batch, weight batch and
    augmentation sequence. *)
Theorem advance_deterministic (self : loc) (o : Minibatch) (w1 w2 : World D) :
  heap w1 !! self = Some o ->
  heap w2 !! self = Some o ->
  draws (run_trace (__next__ self w1)) = draws (run_trace (__next__ self w2)) ->
  pick_replies (run_trace (__next__ self w1))
    = pick_replies (run_trace (__next__ self w2)) ->
  run_trace (__next__ self w1) = run_trace (__next__ self w2) /\
  run_outcome (__next__ self w1) = run_outcome (__next__ self w2) /\
  heap (run_world (__next__ self w1)) !! self
    = heap (run_world (__next__ self w2)) !! self.
Proof.
  intros Hself1 Hself2.
  destruct (next_run self o w1 Hself1) as (d1 & g1 & tr1 & res1 & Hpicks1 & ->).
  destruct (next_run self o w2 Hself2) as (d2 & g2 & tr2 & res2 & Hpicks2 & ->).
  cbn [run_trace run_outcome run_world heap]. intros Hdraws Hreplies.
  assert (Hres : res1 = res2).
  { rewrite (picks_collect _ _ _ _ Hpicks1), (picks_collect _ _ _ _ Hpicks2).
    congruence. }
  subst res2. splits.
  - rewrite (batches_trace_from o tr1 (picks_batches _ _ _ _ Hpicks1)).
    rewrite (batches_trace_from o tr2 (picks_batches _ _ _ _ Hpicks2)).
    congruence.
  - reflexivity.
  - rewrite !lookup_insert_eq. reflexivity.
Qed.

(** C10: with batch_size zero an advance does not raise, calls the data
    source not at all and leaves empty pixel and weight arrays and an empty
    augmentation sequence; so does construction once the two enumerations
    returned, its only calls. *)
Theorem zero_batch_size :
  (forall (self : loc) (o : Minibatch) (w : World D),
     heap w !! self = Some o ->
     batch_size o = 0 ->
     __next__ self w =
       mk_Run
         {| heap :=
              <[self := set_augmentations []
                          (set_weights {| shape := [0%nat]; elems := [] |}
                             (set_pixels {| shape := [0%nat]; elems := [] |} o))]>
                (heap w);
            dataset_state := dataset_state w;
            random_state := random_state w |}
         [] (inr self)) /\
  (forall (a : Args) (w0 : World D) d1 g1 chs d2 g2 lbs,
     arg_batch_size a = 0 ->
     get_channels (dataset_state w0) (random_state w0) = (d1, g1, inr chs) ->
     get_label_values d1 g1 = (d2, g2, inr lbs) ->
     Minibatch_new a w0 =
       mk_Run
         {| heap :=
              <[fresh (dom (heap w0)) :=
                  set_augmentations []
                    (set_weights {| shape := [0%nat]; elems := [] |}
                       (set_pixels {| shape := [0%nat]; elems := [] |}
                          (blank a chs lbs)))]>
                (heap w0);
            dataset_state := d2; random_state := g2 |}
         [EvGetChannels (inr chs); EvGetLabelValues (inr lbs)]
         (inr (fresh (dom (heap w0))))).
Proof.
  assert (Hnext : forall (self : loc) (o : Minibatch) (w : World D),
     heap w !! self = Some o -> batch_size o = 0 ->
     __next__ self w =
       mk_Run
         {| heap :=
              <[self := set_augmentations []
                          (set_weights {| shape := [0%nat]; elems := [] |}
                             (set_pixels {| shape := [0%nat]; elems := [] |} o))]>
                (heap w);
            dataset_state := dataset_state w;
            random_state := random_state w |}
         [] (inr self)).
  { intros self o w Hself Hzero. unfold __next__.
    rewrite <- (app_nil_r (@nil Event)). eapply bind_ok; [|reflexivity].
    unfold _fetch_minibatch_data.
    rewrite (bind_pure _ _ _ _ _ (getattr_run _ _ _ Hself)).
    rewrite Hzero. change (range 0) with (@nil Z). cbn [for_each].
    rewrite (bind_pure (ret _) _ w w _ eq_refl).
    cbn [np_array map lift].
    rewrite (bind_pure (ret _) _ w w _ eq_refl).
    rewrite (bind_pure _ _ _ _ _ (setattr_run _ _ _ _ Hself)).
    rewrite (bind_pure (ret _) _ _ _ _ eq_refl).
    erewrite bind_pure; [|apply setattr_run; apply lookup_insert_eq].
    erewrite setattr_run; [|apply lookup_insert_eq].
    cbn [heap dataset_state random_state].
    rewrite !insert_insert_eq. reflexivity. }
  split; [exact Hnext|].
  intros a w0 d1 g1 chs d2 g2 lbs Hzero Ec El.
  rewrite (new_run_ok a w0 _ _ _ _ _ _ Ec El).
  rewrite (Hnext _ (blank a chs lbs)); [|apply lookup_insert_eq|exact Hzero].
  simpl. rewrite insert_insert_eq. reflexivity.
Qed.

End Claims.

(** ** The properties at work on concrete runs *)

Lemma ragged_world_sampler : heap ragged_world !! 1%positive = Some ragged_sampler.
Proof. vm_compute. reflexivity. Qed.

Lemma steady_world_sampler : heap steady_world !! 1%positive = Some ragged_sampler.
Proof. vm_compute. reflexivity. Qed.

Lemma short_world_sampler : heap short_world !! 1%positive = Some ragged_sampler.
Proof. vm_compute. reflexivity. Qed.

Lemma augmenting_world_sampler :
  heap augmenting_world !! 1%positive = Some augmenting_sampler.
Proof. vm_compute. reflexivity. Qed.

(** Construction then one advance on the synthetic image: both batches have
    leading dimension 2. *)
Lemma batch_dimensions_witness :
  exists o p wt augs,
    heap (run_world (__next__ 1%positive
            (run_world (Minibatch_new demo_args (empty_world 0%nat)))))
      !! 1%positive = Some o /\
    pixels o = Some p /\ weights o = Some wt /\ augmentations o = Some augs /\
    Z.of_nat <$> leading_dim p = Some 2 /\
    Z.of_nat <$> leading_dim wt = Some 2 /\
    Z.of_nat (length augs) = 2.
Proof.
  apply (batch_dimensions demo_args 1%positive _
           (run_trace (Minibatch_new demo_args (empty_world 0%nat)) ++
            run_trace (__next__ 1%positive
              (run_world (Minibatch_new demo_args (empty_world 0%nat)))))
           grid_uniformly_shaped).
  - reflexivity.
  - apply life_next. exact (life_new demo_args (empty_world 0%nat)).
Defined.

(** C2 as stated fails on the second batch of the ragged script: both
    fetches succeed, stacking the weights raises, and the pixel field has
    already been replaced by the new stack. *)
Lemma stacking_failure_partial_update :
  run_outcome (__next__ 1%positive ragged_world)
    = inl (ValueError "inhomogeneous shape") /\
  pick_replies (run_trace (__next__ 1%positive ragged_world))
    = [inr (flat_example 3 [1%Q]); inr (flat_example 4 [0%Q; 1%Q])] /\
  pixels <$> heap ragged_world !! 1%positive
    = Some (Some {| shape := [2%nat; 1%nat]; elems := [1%Q; 2%Q] |}) /\
  pixels <$> heap (run_world (__next__ 1%positive ragged_world)) !! 1%positive
    = Some (Some {| shape := [2%nat; 1%nat]; elems := [3%Q; 4%Q] |}) /\
  pixels <$> heap (run_world (__next__ 1%positive ragged_world)) !! 1%positive
    <> pixels <$> heap ragged_world !! 1%positive.
Proof. vm_compute. splits; try reflexivity. discriminate. Qed.

(** The amended C2 on the same advance. *)
Lemma stacking_failure_state_witness :
  run_outcome (__next__ 1%positive ragged_world)
    = inl (ValueError "inhomogeneous shape") /\
  exists o',
    heap (run_world (__next__ 1%positive ragged_world)) !! 1%positive = Some o' /\
    pixels o' = Some {| shape := [2%nat; 1%nat]; elems := [3%Q; 4%Q] |} /\
    weights o' = weights ragged_sampler /\
    augmentations o' = augmentations ragged_sampler.
Proof.
  refine (proj2 (stacking_failure_state 1%positive ragged_sampler ragged_world
                   [flat_example 3 [1%Q]; flat_example 4 [0%Q; 1%Q]] _ _) _ _ _ _).
  - exact ragged_world_sampler.
  - vm_compute. reflexivity.
  - vm_compute. reflexivity.
  - vm_compute. reflexivity.
Defined.



(** The unaugmented sampler on the steady script, construction and one
    advance. *)
Lemma unaugmented_requests_witness :
  Forall (fun req =>
            rq_size_zxy req = (1, 1, 1) /\
            (run_trace (Minibatch_new plain_args (empty_world steady_script)) ++
             run_trace (__next__ 1%positive steady_world)) !! 0%nat
              = Some (EvGetChannels (inr (rq_channels req))) /\
            (run_trace (Minibatch_new plain_args (empty_world steady_script)) ++
             run_trace (__next__ 1%positive steady_world)) !! 1%nat
              = Some (EvGetLabelValues (inr (rq_labels req))) /\
            rq_pixel_padding req = (0, 0, 0) /\
            rq_equalized req = true /\
            rq_rotation_angle req = None /\ rq_shear_angle req = None)
    (requests (run_trace (Minibatch_new plain_args (empty_world steady_script)) ++
               run_trace (__next__ 1%positive steady_world))) /\
  uniform_calls (run_trace (Minibatch_new plain_args (empty_world steady_script)) ++
                 run_trace (__next__ 1%positive steady_world)) = [].
Proof.
  assert (Hlife : lifetime plain_args (inr 1%positive) steady_world
            (run_trace (Minibatch_new plain_args (empty_world steady_script)))).
  { exact (life_new plain_args (empty_world steady_script)). }
  exact (unaugmented_requests plain_args (inr 1%positive)
           (run_world (__next__ 1%positive steady_world))
           (run_trace (Minibatch_new plain_args (empty_world steady_script)) ++
            run_trace (__next__ 1%positive steady_world))
           (life_next plain_args 1%positive steady_world _ Hlife)
           eq_refl).
Defined.

(** One advance of the unaugmented sampler on the steady script: two
    fetches, and row 1 of each batch is the second example fetched. *)
Lemma advance_lockstep_witness :
  length (requests (run_trace (__next__ 1%positive steady_world))) = 2%nat /\
  Z.of_nat (length (examples (run_trace (__next__ 1%positive steady_world)))) = 2 /\
  exists o' p wt augs,
    heap (run_world (__next__ 1%positive steady_world)) !! 1%positive = Some o' /\
    pixels o' = Some p /\ weights o' = Some wt /\ augmentations o' = Some augs /\
    augs !! 1%nat = Some NoAugmentation /\
    np_index p 1 = Some {| shape := [1%nat]; elems := [4%Q] |} /\
    np_index wt 1 = Some {| shape := [1%nat]; elems := [0%Q] |}.
Proof.
  assert (Hout : run_outcome (__next__ 1%positive steady_world) = inr 1%positive)
    by (vm_compute; reflexivity).
  assert (Hsecond : examples (run_trace (__next__ 1%positive steady_world)) !! 1%nat
                    = Some (flat_example 4 [0%Q]))
    by (vm_compute; reflexivity).
  assert (Hwf : Forall example_well_formed
                  (examples (run_trace (__next__ 1%positive steady_world))))
    by (vm_compute; repeat constructor).
  assert (Hrep : pick_replies (run_trace (__next__ 1%positive steady_world))
                 = map inr [flat_example 3 [1%Q]; flat_example 4 [0%Q]])
    by (vm_compute; reflexivity).
  destruct (advance_lockstep 1%positive ragged_sampler steady_world
              steady_world_sampler) as (_ & Hexact & Hreturns).
  destruct (Hreturns 1%positive Hout)
    as (_ & _ & Hlen & o' & p & wt & augs & Hobj & Hp & Hw & Ha & _ & _ & Hrows).
  split; [exact (proj1 (Hexact _ Hrep))|]. split; [apply Hlen; discriminate|].
  exists o', p, wt, augs.
  destruct (Hrows 1%nat (flat_example 4 [0%Q]) Hsecond) as [Haug Hrow].
  destruct (Hrow Hwf) as [Hprow Hwrow].
  splits; assumption.
Defined.

(** Construction on the steady script: two fetches, and the new sampler
    holds the stack of the two examples. *)
Lemma construction_fetches_first_batch_witness :
  run_trace (Minibatch_new plain_args (empty_world steady_script))
    = EvGetChannels (inr [0]) :: EvGetLabelValues (inr [1]) ::
      run_trace (__next__ 1%positive
        {| heap := <[1%positive := blank plain_args [0] [1]]> ∅;
           dataset_state := steady_script; random_state := demo_rng |}) /\
  length (requests (run_trace (Minibatch_new plain_args (empty_world steady_script))))
    = 2%nat /\
  heap (run_world (Minibatch_new plain_args (empty_world steady_script))) !! 1%positive
    = Some {| padding_zxy := (0, 0, 0); size_zxy := (1, 1, 1); channels := [0];
              labels := [1]; batch_size := 2; equalized := true; augment := false;
              rotation_range := (Finite (-45), Finite 45);
              shear_range := (Finite (-5), Finite 5);
              pixels := Some {| shape := [2%nat; 1%nat]; elems := [1%Q; 2%Q] |};
              weights := Some {| shape := [2%nat; 1%nat]; elems := [1%Q; 0%Q] |};
              augmentations := Some [NoAugmentation; NoAugmentation] |}.
Proof.
  assert (Hout : run_outcome (Minibatch_new plain_args (empty_world steady_script))
                 = inr 1%positive) by (vm_compute; reflexivity).
  assert (Ec : get_channels (dataset_state (empty_world steady_script))
                 (random_state (empty_world steady_script))
               = (steady_script, demo_rng, inr [0])) by reflexivity.
  assert (El : get_label_values steady_script demo_rng
               = (steady_script, demo_rng, inr [1])) by reflexivity.
  destruct (construction_fetches_first_batch plain_args (empty_world steady_script)
              steady_script demo_rng [0] steady_script demo_rng [1] Ec El)
    as (_ & Erun & body & Ebody & _ & _ & _ & _ & Hreturns).
  destruct (Hreturns 1%positive Hout)
    as (_ & _ & Hlen & p & wt & Hp & Hw & Hobj).
  assert (Hex : examples body = [flat_example 1 [1%Q]; flat_example 2 [0%Q]]).
  { assert (Hall : examples (run_trace (Minibatch_new plain_args
                                          (empty_world steady_script)))
                   = [flat_example 1 [1%Q]; flat_example 2 [0%Q]])
      by (vm_compute; reflexivity).
    rewrite Ebody in Hall. exact Hall. }
  rewrite Hex in Hp, Hw, Hobj.
  injection Hp as <-. injection Hw as <-.
  splits.
  - exact (f_equal run_trace Erun).
  - vm_compute. reflexivity.
  - exact Hobj.
Defined.

(** Three failures reaching the caller: the data source running out of
    locations in the second fetch of an advance, the weight stacking of the
    ragged script, and a channel enumeration that fails in construction. *)
Lemma errors_propagate_witness :
  (run_outcome (__next__ 1%positive short_world)
     = inl (PyExc "RuntimeError" "no valid location") /\
   last (run_trace (__next__ 1%positive short_world))
     = Some (EvPick (plain_request ragged_sampler)
               (inl (PyExc "RuntimeError" "no valid location")))) /\
  run_outcome (__next__ 1%positive ragged_world)
    = inl (ValueError "inhomogeneous shape") /\
  (run_outcome (Minibatch_new plain_args (empty_world broken_script))
     = inl (PyExc "IOError" "no image") /\
   last (run_trace (Minibatch_new plain_args (empty_world broken_script)))
     = Some (EvGetChannels (inl (PyExc "IOError" "no image")))).
Proof.
  destruct (errors_propagate (D := Script)) as [Hnext Hnew].
  split; [|split].
  - apply (proj1 (Hnext 1%positive ragged_sampler short_world short_world_sampler)
             (EvPick (plain_request ragged_sampler)
                     (inl (PyExc "RuntimeError" "no valid location")))
             (PyExc "RuntimeError" "no valid location")).
    + vm_compute. auto.
    + reflexivity.
  - apply (proj1 (proj2 (proj2
             (Hnext 1%positive ragged_sampler ragged_world ragged_world_sampler)))
             [flat_example 3 [1%Q]; flat_example 4 [0%Q; 1%Q]]
             {| shape := [2%nat; 1%nat]; elems := [3%Q; 4%Q] |}).
    + vm_compute. reflexivity.
    + vm_compute. reflexivity.
    + vm_compute. reflexivity.
  - apply (proj1 (Hnew plain_args (empty_world broken_script))
             (EvGetChannels (inl (PyExc "IOError" "no image")))
             (PyExc "IOError" "no image")).
    + vm_compute. auto.
    + reflexivity.
Defined.

(** The flag of [plain_args] (true) on every request of construction and
    one advance; and that advance keeps both examples. *)
Lemma equalized_forwarded_witness :
  Forall (fun req => rq_equalized req = true)
    (requests (run_trace (Minibatch_new plain_args (empty_world steady_script)) ++
               run_trace (__next__ 1%positive steady_world))) /\
  length (examples (run_trace (__next__ 1%positive steady_world)))
    = length (requests (run_trace (__next__ 1%positive steady_world))).
Proof.
  destruct (equalized_forwarded (D := Script)) as [Hflag Hkeep].
  assert (Hlife : lifetime plain_args (inr 1%positive) steady_world
            (run_trace (Minibatch_new plain_args (empty_world steady_script)))).
  { exact (life_new plain_args (empty_world steady_script)). }
  assert (Hout : run_outcome (__next__ 1%positive steady_world) = inr 1%positive)
    by (vm_compute; reflexivity).
  split.
  - exact (Hflag plain_args (inr 1%positive) _ _
             (life_next plain_args 1%positive steady_world _ Hlife)).
  - exact (proj1 (Hkeep 1%positive ragged_sampler steady_world 1%positive
                    steady_world_sampler Hout)).
Defined.

(** Two advances of the augmenting sampler from worlds whose data sources
    are in different states but answer alike. *)
Lemma advance_deterministic_witness :
  run_trace (__next__ 1%positive augmenting_world)
    = run_trace (__next__ 1%positive augmenting_world') /\
  run_outcome (__next__ 1%positive augmenting_world)
    = run_outcome (__next__ 1%positive augmenting_world') /\
  heap (run_world (__next__ 1%positive augmenting_world)) !! 1%positive
    = heap (run_world (__next__ 1%positive augmenting_world')) !! 1%positive.
Proof.
  apply (advance_deterministic 1%positive augmenting_sampler).
  - exact augmenting_world_sampler.
  - exact augmenting_world_sampler.
  - vm_compute. reflexivity.
  - vm_compute. reflexivity.
Defined.

(** batch_size zero: an advance and a construction on the steady script. *)
Lemma zero_batch_size_witness :
  __next__ 1%positive
    {| heap := {[1%positive := blank zero_batch_args [0] [1]]};
       dataset_state := steady_script; random_state := demo_rng |}
    = mk_Run
        {| heap :=
             <[1%positive :=
                 set_augmentations []
                   (set_weights {| shape := [0%nat]; elems := [] |}
                      (set_pixels {| shape := [0%nat]; elems := [] |}
                         (blank zero_batch_args [0] [1])))]>
               {[1%positive := blank zero_batch_args [0] [1]]};
           dataset_state := steady_script; random_state := demo_rng |}
        [] (inr 1%positive) /\
  Minibatch_new zero_batch_args (empty_world steady_script)
    = mk_Run
        {| heap :=
             <[1%positive :=
                 set_augmentations []
                   (set_weights {| shape := [0%nat]; elems := [] |}
                      (set_pixels {| shape := [0%nat]; elems := [] |}
                         (blank zero_batch_args [0] [1])))]> ∅;
           dataset_state := steady_script; random_state := demo_rng |}
        [EvGetChannels (inr [0]); EvGetLabelValues (inr [1])]
        (inr 1%positive).
Proof.
  destruct (zero_batch_size (D := Script)) as [Hnext Hnew].
  split.
  - exact (Hnext 1%positive (blank zero_batch_args [0] [1])
             {| heap := {[1%positive := blank zero_batch_args [0] [1]]};
                dataset_state := steady_script; random_state := demo_rng |}
             (lookup_singleton_eq _ _) eq_refl).
  - apply (Hnew zero_batch_args (empty_world steady_script)
             steady_script demo_rng [0] steady_script demo_rng [1]);
      reflexivity.
Defined.

(** ** Further properties of the sampler *)

Section Frame.

Context {D : Type} `{DataSource D}.

Local Open Scope py_scope.

(** A loop of picks that raised got the exception from the data source. *)
Lemma picks_raise_answers (o : Minibatch) n tr e :
  picks o n tr (inl e) -> exists req, answers req (inl e).
Proof.
  remember (inl e) as res eqn:Hres. intros Hpicks. revert Hres.
  induction Hpicks as [|n evs e' Hev|n evs t tr res Hev Hpicks IH]; intros Hres.
  - discriminate.
  - injection Hres as ->.
    destruct (pick_events_request _ _ _ Hev) as (req & _ & _ & Hans & _).
    exists req. exact Hans.
  - destruct res as [e'|ts]; [|discriminate]. injection Hres as ->.
    exact (IH eq_refl).
Qed.

(** The stacking stage rewrites the three batch fields and nothing else. *)
Lemma stacked_config (o : Minibatch) (p w : ndarray) (a : list Augmentation) :
  set_augmentations a (set_weights w (set_pixels p o))
  = set_augmentations a (set_weights w (set_pixels p (config_of o))).
Proof. reflexivity. Qed.

(** With batch_size zero or negative the loop body never runs. *)
Lemma next_no_fetch (self : loc) (o : Minibatch) (w : World D) :
  heap w !! self = Some o ->
  batch_size o <= 0 ->
  __next__ self w =
    mk_Run
      {| heap :=
           <[self := set_augmentations []
                       (set_weights {| shape := [0%nat]; elems := [] |}
                          (set_pixels {| shape := [0%nat]; elems := [] |} o))]>
             (heap w);
         dataset_state := dataset_state w;
         random_state := random_state w |}
      [] (inr self).
Proof.
  intros Hself Hle. unfold __next__.
  rewrite <- (app_nil_r (@nil Event)). eapply bind_ok; [|reflexivity].
  unfold _fetch_minibatch_data.
  rewrite (bind_pure _ _ _ _ _ (getattr_run _ _ _ Hself)).
  assert (Hrange : range (batch_size o) = []).
  { unfold range. rewrite Z2Nat.nonpos by exact Hle. reflexivity. }
  rewrite Hrange. cbn [for_each].
  rewrite (bind_pure (ret _) _ w w _ eq_refl).
  cbn [np_array map lift].
  rewrite (bind_pure (ret _) _ w w _ eq_refl).
  rewrite (bind_pure _ _ _ _ _ (setattr_run _ _ _ _ Hself)).
  rewrite (bind_pure (ret _) _ _ _ _ eq_refl).
  erewrite bind_pure; [|apply setattr_run; apply lookup_insert_eq].
  erewrite setattr_run; [|apply lookup_insert_eq].
  cbn [heap dataset_state random_state].
  rewrite !insert_insert_eq. reflexivity.
Qed.

(** X1: an advance, whether it returns or raises, assigns no configuration
    attribute of the sampler (batch_size, size_zxy, padding_zxy, channels,
    labels, equalized, augment and the two ranges are afterwards what they
    were) and leaves every other sampler instance as it was; the data
    source and the random source, which the advance uses, are not covered
    by this statement. *)
Theorem advance_frame (self : loc) (o : Minibatch) (w : World D) :
  heap w !! self = Some o ->
  (forall l, l <> self ->
     heap (run_world (__next__ self w)) !! l = heap w !! l) /\
  exists o',
    heap (run_world (__next__ self w)) !! self = Some o' /\
    batch_size o' = batch_size o /\ size_zxy o' = size_zxy o /\
    padding_zxy o' = padding_zxy o /\ channels o' = channels o /\
    labels o' = labels o /\ equalized o' = equalized o /\
    augment o' = augment o /\ rotation_range o' = rotation_range o /\
    shear_range o' = shear_range o.
Proof.
  intros Hself.
  destruct (next_run self o w Hself) as (d & g & tr & res & Hpicks & ->).
  cbn [run_world heap]. split.
  - intros l Hl. apply lookup_insert_ne. congruence.
  - eexists. split; [apply lookup_insert_eq|].
    pose proof (config_after_loop o res) as Hc.
    splits.
    + exact (f_equal batch_size Hc).
    + exact (f_equal size_zxy Hc).
    + exact (f_equal padding_zxy Hc).
    + exact (f_equal channels Hc).
    + exact (f_equal labels Hc).
    + exact (f_equal equalized Hc).
    + exact (f_equal augment Hc).
    + exact (f_equal rotation_range Hc).
    + exact (f_equal shear_range Hc).
Qed.

(** X2: when a fetch raises during an advance, the heap is left exactly as
    it was: the sampler still holds its previous batch in all three
    fields. *)
Theorem failed_fetch_keeps_batch (self : loc) (o : Minibatch) (w : World D)
    (ev : Event) (e : exn) :
  heap w !! self = Some o ->
  In ev (run_trace (__next__ self w)) ->
  raised ev = Some e ->
  heap (run_world (__next__ self w)) = heap w.
Proof.
  intros Hself.
  destruct (next_run self o w Hself) as (d & g & tr & res & Hpicks & ->).
  cbn [run_world run_trace heap]. intros Hin Hraised.
  destruct (picks_raised _ _ _ _ _ _ Hpicks Hin Hraised) as [-> _].
  simpl. apply insert_id. exact Hself.
Qed.

(** X4: a negative batch_size is accepted: the advance returns the sampler
    without any call and leaves empty arrays of shape (0,) and an empty
    augmentation list, so the leading dimension is 0, not batch_size. *)
Theorem negative_batch_size (self : loc) (o : Minibatch) (w : World D) :
  heap w !! self = Some o ->
  batch_size o < 0 ->
  __next__ self w =
    mk_Run
      {| heap :=
           <[self := set_augmentations []
                       (set_weights {| shape := [0%nat]; elems := [] |}
                          (set_pixels {| shape := [0%nat]; elems := [] |} o))]>
             (heap w);
         dataset_state := dataset_state w;
         random_state := random_state w |}
      [] (inr self) /\
  Z.of_nat <$> leading_dim {| shape := [0%nat]; elems := [] |}
    <> Some (batch_size o).
Proof.
  intros Hself Hneg. split.
  - apply next_no_fetch; [exact Hself|lia].
  - simpl. intros [= Heq]. lia.
Qed.

(** X5: an advance that returns discards the previous batch entirely: two
    samplers with the same configuration but different batch fields (none
    yet, an older batch, a half-replaced one) that get the same replies end
    up equal. *)
Theorem advance_overwrites (self : loc) (o1 o2 : Minibatch) (w1 w2 : World D)
    (v1 v2 : loc) :
  heap w1 !! self = Some o1 ->
  heap w2 !! self = Some o2 ->
  config_of o1 = config_of o2 ->
  run_outcome (__next__ self w1) = inr v1 ->
  run_outcome (__next__ self w2) = inr v2 ->
  pick_replies (run_trace (__next__ self w1))
    = pick_replies (run_trace (__next__ self w2)) ->
  heap (run_world (__next__ self w1)) !! self
    = heap (run_world (__next__ self w2)) !! self.
Proof.
  intros Hself1 Hself2 Hc Hout1 Hout2 Hrep.
  destruct (next_ok self o1 w1 v1 Hself1 Hout1)
    as (_ & Hrep1 & _ & _ & p1 & wt1 & Hp1 & Hw1 & ->).
  destruct (next_ok self o2 w2 v2 Hself2 Hout2)
    as (_ & Hrep2 & _ & _ & p2 & wt2 & Hp2 & Hw2 & ->).
  assert (Hex : examples (run_trace (__next__ self w1))
                = examples (run_trace (__next__ self w2))).
  { rewrite Hrep1, Hrep2 in Hrep.
    revert Hrep. generalize (examples (run_trace (__next__ self w1))).
    generalize (examples (run_trace (__next__ self w2))).
    intros l2 l1. revert l2.
    induction l1 as [|x l1 IH]; intros [|y l2] Heq; try discriminate;
      [reflexivity|].
    injection Heq as -> Heq. f_equal. exact (IH l2 Heq). }
  rewrite Hex in *. rewrite Hp2 in Hp1. injection Hp1 as ->.
  rewrite Hw2 in Hw1. injection Hw1 as ->.
  rewrite (stacked_config o1), (stacked_config o2), Hc. reflexivity.
Qed.

End Frame.

Section Requests.

Context {D : Type} `{DataSource D}.

(** The geometry, channels and labels of every request of an instance. *)
Lemma batches_geometry (o : Minibatch) tr req :
  batches o tr -> In req (requests tr) ->
  rq_size_zxy req = size_zxy o /\ rq_pixel_padding req = padding_zxy o /\
  rq_channels req = channels o /\ rq_labels req = labels o.
Proof.
  intros Hb Hin. pose proof (batches_requests _ _ _ Hb Hin) as Hreq.
  destruct (augment o).
  - destruct Hreq as (r & s & _ & _ & ->). splits; reflexivity.
  - subst req. splits; reflexivity.
Qed.

(** X3: over the whole life of a sampler the channels are enumerated
    exactly once, as the very first call, and the labels at most once, right
    after; every later request, with or without augmentation, carries the
    channels and labels those two calls returned together with the
    constructor's size_zxy and padding_zxy. *)
Theorem enumerated_once (a : Args) st (w : World D) (tr : list Event) :
  lifetime a st w tr ->
  (exists reply,
     channel_calls tr = [EvGetChannels reply] /\
     tr !! 0%nat = Some (EvGetChannels reply)) /\
  (label_calls tr = [] \/
   exists reply,
     label_calls tr = [EvGetLabelValues reply] /\
     tr !! 1%nat = Some (EvGetLabelValues reply)) /\
  Forall (fun req =>
            tr !! 0%nat = Some (EvGetChannels (inr (rq_channels req))) /\
            tr !! 1%nat = Some (EvGetLabelValues (inr (rq_labels req))) /\
            rq_size_zxy req = arg_size_zxy a /\
            rq_pixel_padding req = arg_padding_zxy a)
         (requests tr).
Proof.
  intros Hlife.
  destruct (lifetime_shape _ _ _ _ Hlife)
    as [(e & _ & ->)|[(chs & e & _ & ->)|(chs & lbs & body & -> & Hb & _)]].
  - splits; [eexists; split; reflexivity|left; reflexivity|constructor].
  - splits; [eexists; split; reflexivity| |constructor].
    right. eexists. split; reflexivity.
  - destruct (batches_no_enumeration _ _ Hb) as [Hc Hl].
    change (channel_calls (EvGetChannels (inr chs) :: EvGetLabelValues (inr lbs) :: body))
      with (EvGetChannels (inr chs) :: channel_calls body).
    change (label_calls (EvGetChannels (inr chs) :: EvGetLabelValues (inr lbs) :: body))
      with (EvGetLabelValues (inr lbs) :: label_calls body).
    change (requests (EvGetChannels (inr chs) :: EvGetLabelValues (inr lbs) :: body))
      with (requests body).
    rewrite Hc, Hl. splits.
    + eexists. split; reflexivity.
    + right. eexists. split; reflexivity.
    + apply List.Forall_forall. intros req Hin.
      destruct (batches_geometry _ _ _ Hb Hin) as (-> & -> & -> & ->).
      splits; reflexivity.
Qed.


(** X8: throughout the life of a sampler [__repr__] returns the same
    string, built from the constructor's batch_size, size_zxy and augment;
    it makes no call, changes nothing and does not raise. *)
Theorem repr_constant (a : Args) (self : loc) (w : World D) (tr : list Event) :
  lifetime a (inr self) w tr ->
  __repr__ self w =
    mk_Run w []
      (inr (infostring (arg_batch_size a) (arg_size_zxy a) (arg_augment a))).
Proof.
  intros Hlife.
  destruct (lifetime_shape _ _ _ _ Hlife)
    as [(e & He & _)|[(chs & e & He & _)|(chs & lbs & body & _ & _ & Hobj)]];
    try discriminate.
  destruct (Hobj self eq_refl) as (o & Hself & Hc).
  unfold __repr__.
  rewrite (bind_pure _ _ _ _ _ (getattr_run _ _ _ Hself)).
  rewrite (f_equal batch_size Hc : batch_size o = _).
  rewrite (f_equal size_zxy Hc : size_zxy o = _).
  rewrite (f_equal augment Hc : augment o = _).
  reflexivity.
Qed.

End Requests.

Section Progress.

Context {D : Type} `{DataSource D}.

Local Open Scope py_scope.

(** With a data source that never raises and honours the shape contract
    an advance returns. *)
Lemma advance_returns_aux (self : loc) (o : Minibatch) (w : World D) :
  never_raises ->
  uniformly_shaped ->
  heap w !! self = Some o ->
  exists w1 tr1 o1,
    __next__ self w = mk_Run w1 tr1 (inr self) /\
    length (requests tr1) = Z.to_nat (batch_size o) /\
    heap w1 !! self = Some o1 /\
    config_of o1 = config_of o /\
    batch_ready (Z.of_nat (Z.to_nat (batch_size o))) o1.
Proof.
  intros Hnever Hu Hself.
  destruct (next_run self o w Hself) as (d & g & tr & res & Hpicks & ->).
  destruct res as [e|ts].
  { destruct (picks_raise_answers _ _ _ _ Hpicks) as (req & Hans).
    destruct (Hnever req e Hans). }
  destruct (picks_stack _ _ _ _ Hu Hpicks) as (p & wt & Hp & Hw).
  destruct (picks_ok _ _ _ _ Hpicks) as (Hlen & _ & Hreq & _).
  assert (Hout : (after_loop o (inr ts)).2 = inr tt).
  { simpl. unfold stack_batch. rewrite Hp, Hw. reflexivity. }
  rewrite Hout. eexists. exists tr. eexists.
  splits; [reflexivity|exact Hreq|apply lookup_insert_eq|apply config_after_loop|].
  apply (after_loop_ready _ _ _ _ Hu Hpicks). right. exact Hout.
Qed.

(** X10: with a data source that never raises and returns uniformly shaped
    examples an advance cannot fail: it returns the sampler, after exactly
    batch_size fetches, with a full batch in the three fields. *)
Theorem advance_returns (self : loc) (o : Minibatch) (w : World D) :
  never_raises ->
  uniformly_shaped ->
  heap w !! self = Some o ->
  run_outcome (__next__ self w) = inr self /\
  length (requests (run_trace (__next__ self w))) = Z.to_nat (batch_size o) /\
  exists o',
    heap (run_world (__next__ self w)) !! self = Some o' /\
    config_of o' = config_of o /\
    batch_ready (Z.of_nat (Z.to_nat (batch_size o))) o'.
Proof.
  intros Hnever Hu Hself.
  destruct (advance_returns_aux self o w Hnever Hu Hself)
    as (w1 & tr1 & o1 & -> & Hreq & Hself1 & Hc & Hready).
  splits; [reflexivity|exact Hreq|]. exists o1. auto.
Qed.

(** The loop of the docstring from a counter at [11 - k]: [k] more
    iterations are enough. *)
Lemma example_loop_from_spec (m : loc) (k : nat) :
  never_raises -> uniformly_shaped ->
  forall (fuel : nat) (o : Minibatch) (w : World D),
    (1 <= k)%nat -> (k <= 11)%nat -> (k <= fuel)%nat ->
    heap w !! m = Some o ->
    run_outcome (example_loop_from fuel m (11 - Z.of_nat k) w) = inr (Some 11) /\
    length (requests (run_trace (example_loop_from fuel m (11 - Z.of_nat k) w)))
      = (k * Z.to_nat (batch_size o))%nat /\
    exists o',
      heap (run_world (example_loop_from fuel m (11 - Z.of_nat k) w)) !! m = Some o' /\
      config_of o' = config_of o /\
      batch_ready (Z.of_nat (Z.to_nat (batch_size o))) o'.
Proof.
  intros Hnever Hu. induction k as [|k IH]; intros fuel o w Hk1 Hk11 Hfuel Hm;
    [lia|].
  destruct fuel as [|fuel]; [lia|].
  destruct (advance_returns_aux m o w Hnever Hu Hm)
    as (w1 & tr1 & o1 & Enext & Hreq1 & Hm1 & Hc1 & Hready1).
  assert (Hget : getattr m w1 = mk_Run w1 [] (inr o1))
    by (apply getattr_run; exact Hm1).
  destruct (Z_gt_le_dec (11 - Z.of_nat (S k) + 1) 10) as [Hgt|Hle].
  - assert (k = 0%nat) by lia. subst k.
    assert (Erun : example_loop_from (S fuel) m (11 - Z.of_nat 1) w
                   = mk_Run w1 (tr1 ++ []) (inr (Some 11))).
    { cbn [example_loop_from]. eapply bind_ok; [exact Enext|].
      rewrite (bind_pure _ _ _ _ _ Hget). reflexivity. }
    rewrite Erun. cbn [run_outcome run_trace run_world]. rewrite app_nil_r.
    splits; [reflexivity|lia|]. exists o1. auto.
  - assert (Hk : (1 <= k)%nat) by lia.
    assert (Hcounter : 11 - Z.of_nat (S k) + 1 = 11 - Z.of_nat k) by lia.
    destruct (IH fuel o1 w1 Hk ltac:(lia) ltac:(lia) Hm1)
      as (Hout & Hreq & o' & Hm' & Hc' & Hready').
    assert (Erun : example_loop_from (S fuel) m (11 - Z.of_nat (S k)) w
                   = mk_Run (run_world (example_loop_from fuel m (11 - Z.of_nat k) w1))
                       (tr1 ++ run_trace (example_loop_from fuel m (11 - Z.of_nat k) w1))
                       (run_outcome (example_loop_from fuel m (11 - Z.of_nat k) w1))).
    { cbn [example_loop_from]. eapply bind_ok; [exact Enext|].
      rewrite (bind_pure _ _ _ _ _ Hget).
      destruct (Z.gtb_spec (11 - Z.of_nat (S k) + 1) 10) as [Hgt|_]; [lia|].
      rewrite Hcounter. apply eq_sym, run_eta. }
    rewrite Erun. cbn [run_outcome run_trace run_world].
    assert (Hbs : batch_size o1 = batch_size o) by exact (f_equal batch_size Hc1).
    rewrite Hbs in *.
    splits; [exact Hout| |].
    + rewrite requests_app, length_app, Hreq, Hreq1. lia.
    + exists o'. splits; [exact Hm'|congruence|exact Hready'].
Qed.

(** X9: the loop of the class docstring ends although the sampler is an
    infinite iterator: with a data source that never raises and returns
    uniformly shaped examples it breaks with counter 11 after exactly 11
    advances (11 * batch_size fetches), and the sampler then holds a full
    batch. *)
Theorem example_loop_terminates (m : loc) (o : Minibatch) (w : World D)
    (fuel : nat) :
  never_raises ->
  uniformly_shaped ->
  heap w !! m = Some o ->
  (11 <= fuel)%nat ->
  run_outcome (example_loop fuel m w) = inr (Some 11) /\
  length (requests (run_trace (example_loop fuel m w)))
    = (11 * Z.to_nat (batch_size o))%nat /\
  exists o',
    heap (run_world (example_loop fuel m w)) !! m = Some o' /\
    config_of o' = config_of o /\
    batch_ready (Z.of_nat (Z.to_nat (batch_size o))) o'.
Proof.
  intros Hnever Hu Hm Hfuel.
  unfold example_loop, __iter__.
  rewrite (bind_pure (ret m) _ w w m eq_refl).
  exact (example_loop_from_spec m 11 Hnever Hu fuel o w
           ltac:(lia) ltac:(lia) Hfuel Hm).
Qed.

End Progress.

Section RandomSource.

Context {D : Type} `{DataSource D}.

Local Open Scope py_scope.

Lemma skip_0 (g : Rng) : skip 0 g = g.
Proof. destruct g; reflexivity. Qed.

Lemma skip_skip (a b : nat) (g : Rng) : skip a (skip b g) = skip (a + b) g.
Proof. unfold skip. simpl. f_equal. lia. Qed.

Lemma uniform_exact (a b : pyfloat) (w : World D) :
  uniform a b w =
    mk_Run {| heap := heap w; dataset_state := dataset_state w;
              random_state := skip 1 (random_state w) |}
           [EvUniform a b (random_uniform a b (random_state w)).1]
           (inr (random_uniform a b (random_state w)).1).
Proof. reflexivity. Qed.

(** One pick draws twice when augmenting and never otherwise. *)
Lemma pick_random_state (self : loc) (o : Minibatch) (w : World D) :
  leaves_random_alone ->
  heap w !! self = Some o ->
  exists d evs reply,
    _pick_random_tpl self w =
      mk_Run {| heap := heap w; dataset_state := d;
                random_state := skip (if augment o then 2 else 0) (random_state w) |}
             evs reply /\
    length (requests evs) = 1%nat.
Proof.
  intros Halone Hself. unfold _pick_random_tpl.
  rewrite (bind_pure _ _ _ _ _ (getattr_run _ _ _ Hself)).
  destruct (augment o); cbn [negb].
  - assert (Es : exists s,
        _get_random_shear self w =
          mk_Run {| heap := heap w; dataset_state := dataset_state w;
                    random_state := skip 1 (random_state w) |}
                 [EvUniform (shear_range o).1 (shear_range o).2 s] (inr s)).
    { unfold _get_random_shear.
      rewrite (bind_pure _ _ _ _ _ (getattr_run _ _ _ Hself)).
      destruct (shear_range o) as [a b]. eexists. apply uniform_exact. }
    destruct Es as [s Es].
    set (w1 := {| heap := heap w; dataset_state := dataset_state w;
                  random_state := skip 1 (random_state w) |}) in *.
    assert (Er : exists r,
        _get_random_rotation self w1 =
          mk_Run {| heap := heap w; dataset_state := dataset_state w;
                    random_state := skip 2 (random_state w) |}
                 [EvUniform (rotation_range o).1 (rotation_range o).2 r] (inr r)).
    { unfold _get_random_rotation.
      rewrite (bind_pure _ _ _ _ _ (getattr_run self o w1 Hself)).
      destruct (rotation_range o) as [a b]. eexists. apply uniform_exact. }
    destruct Er as [r Er].
    set (w2 := {| heap := heap w; dataset_state := dataset_state w;
                  random_state := skip 2 (random_state w) |}) in *.
    set (req := {| rq_size_zxy := size_zxy o; rq_channels := channels o;
                   rq_pixel_padding := padding_zxy o;
                   rq_equalized := equalized o; rq_labels := labels o;
                   rq_rotation_angle := Some r; rq_shear_angle := Some s |}).
    pose proof (Halone req (dataset_state w2) (random_state w2)) as Hg.
    destruct (pick_random_training_template req (dataset_state w2) (random_state w2))
      as [[d g] reply] eqn:Epick. simpl in Hg. subst g.
    exists d. eexists. exists reply. split.
    + eapply bind_ok; [exact Es|]. eapply bind_ok; [exact Er|].
      exact (call_run _ (EvPick req) w2 _ _ _ Epick).
    + reflexivity.
  - set (req := {| rq_size_zxy := size_zxy o; rq_channels := channels o;
                   rq_pixel_padding := padding_zxy o;
                   rq_equalized := equalized o; rq_labels := labels o;
                   rq_rotation_angle := None; rq_shear_angle := None |}).
    pose proof (Halone req (dataset_state w) (random_state w)) as Hg.
    destruct (pick_random_training_template req (dataset_state w) (random_state w))
      as [[d g] reply] eqn:Epick. simpl in Hg. subst g.
    exists d. eexists. exists reply. split.
    + rewrite skip_0. exact (call_run _ (EvPick req) w _ _ _ Epick).
    + reflexivity.
Qed.

Lemma loop_random_state (self : loc) (o : Minibatch) (xs : list Z) :
  leaves_random_alone ->
  forall acc (w : World D),
    heap w !! self = Some o ->
    exists d tr out,
      for_each xs (fetch_body self) acc w =
        mk_Run {| heap := heap w; dataset_state := d;
                  random_state :=
                    skip ((if augment o then 2 else 0) * length (requests tr))
                         (random_state w) |}
               tr out.
Proof.
  intros Halone. induction xs as [|x xs IH]; intros [[ps ws] augs] w Hself.
  - exists (dataset_state w), [], (inr (ps, ws, augs)).
    simpl. rewrite Nat.mul_0_r, skip_0, <- world_eta. reflexivity.
  - destruct (pick_random_state self o w Halone Hself)
      as (d1 & evs & reply & Ep & Hone).
    destruct reply as [e|t].
    + exists d1, evs, (inl e). rewrite Hone, Nat.mul_1_r.
      simpl. apply bind_raise. apply bind_raise. exact Ep.
    + set (w1 := {| heap := heap w; dataset_state := d1;
                    random_state := skip (if augment o then 2 else 0)
                                         (random_state w) |}) in *.
      destruct (IH (ps ++ [tpl_pixels t], ws ++ [tpl_weights t],
                    augs ++ [tpl_augmentation t]) w1 Hself)
        as (d2 & tr & out & Eloop).
      exists d2, (evs ++ tr), out.
      simpl for_each. eapply bind_ok.
      * unfold fetch_body. rewrite <- (app_nil_r evs).
        eapply bind_ok; [exact Ep|]. reflexivity.
      * rewrite Eloop. cbn [heap random_state w1]. rewrite skip_skip.
        rewrite requests_app, length_app, Hone. do 3 f_equal. lia.
Qed.

(** After its loop [_fetch_minibatch_data] makes no call and leaves the data
    source and the random source as the loop left them. *)
Lemma fetch_after_loop (self : loc) (o : Minibatch) (w : World D) d g tr out :
  heap w !! self = Some o ->
  for_each (range (batch_size o)) (fetch_body self) ([], [], []) w =
    mk_Run {| heap := heap w; dataset_state := d; random_state := g |} tr out ->
  exists h out',
    _fetch_minibatch_data self w =
      mk_Run {| heap := h; dataset_state := d; random_state := g |} tr out'.
Proof.
  intros Hself Eloop. unfold _fetch_minibatch_data.
  rewrite (bind_pure _ _ _ _ _ (getattr_run _ _ _ Hself)).
  change (for_each (range (batch_size o)) _ ([], [], []))
    with (for_each (range (batch_size o)) (fetch_body self) ([], [], [])).
  destruct out as [e|[[ps ws] augs]].
  - do 2 eexists. apply bind_raise. exact Eloop.
  - set (w1 := {| heap := heap w; dataset_state := d; random_state := g |}) in *.
    assert (Hself1 : heap w1 !! self = Some o) by exact Hself.
    rewrite <- (app_nil_r tr).
    destruct (np_array ps) as [e|p] eqn:Hp.
    { do 2 eexists. eapply bind_ok; [exact Eloop|].
      cbn beta iota. rewrite Hp. reflexivity. }
    destruct (np_array ws) as [e|wt] eqn:Hw.
    { do 2 eexists. eapply bind_ok; [exact Eloop|].
      cbn beta iota. rewrite Hp. cbn [lift].
      rewrite (bind_pure (ret p) _ w1 w1 p eq_refl).
      rewrite (bind_pure _ _ _ _ _ (setattr_run _ _ _ _ Hself1)).
      rewrite Hw. reflexivity. }
    do 2 eexists. eapply bind_ok; [exact Eloop|].
    cbn beta iota. rewrite Hp. cbn [lift].
    rewrite (bind_pure (ret p) _ w1 w1 p eq_refl).
    rewrite (bind_pure _ _ _ _ _ (setattr_run _ _ _ _ Hself1)).
    rewrite Hw. cbn [lift].
    rewrite (bind_pure (ret wt) _ _ _ wt eq_refl).
    erewrite bind_pure; [|apply setattr_run; apply lookup_insert_eq].
    erewrite setattr_run; [|apply lookup_insert_eq].
    reflexivity.
Qed.

(** X7: when the data source leaves the process-wide random source alone,
    an advance consumes exactly two draws of it per fetch made if the
    sampler augments (whether the advance returns or raises) and none at
    all if it does not; the tape itself is never changed. *)
Theorem random_consumption (self : loc) (o : Minibatch) (w : World D) :
  leaves_random_alone ->
  heap w !! self = Some o ->
  random_state (run_world (__next__ self w)) =
    skip ((if augment o then 2 else 0)
          * length (requests (run_trace (__next__ self w))))
         (random_state w).
Proof.
  intros Halone Hself.
  destruct (loop_random_state self o (range (batch_size o)) Halone
              ([], [], []) w Hself) as (d & tr & out & Eloop).
  destruct (fetch_after_loop self o w _ _ _ _ Hself Eloop) as (h & out' & Ef).
  unfold __next__. destruct out' as [e|u].
  - rewrite (bind_raise _ _ _ _ _ _ Ef). reflexivity.
  - rewrite (bind_ok _ (fun _ => ret self) _ _ _ _ _ _ _ Ef eq_refl).
    cbn [run_world run_trace random_state]. rewrite app_nil_r. reflexivity.
Qed.

End RandomSource.

Section Construction.

Context {D : Type} `{DataSource D}.

(** X11: constructing a sampler leaves every sampler instance that exists
    already (for instance one bound to the same data source) with the
    configuration and the batch it had, whether construction returns or
    raises, and the sampler it returns is none of them; the data source and
    the random source, which construction uses, are not covered by this
    statement. *)
Theorem construction_frame (a : Args) (w0 : World D) (l : loc) (x : Minibatch) :
  heap w0 !! l = Some x ->
  heap (run_world (Minibatch_new a w0)) !! l = Some x /\
  (forall self, run_outcome (Minibatch_new a w0) = inr self -> self <> l).
Proof.
  intros Hl.
  assert (Hfresh : fresh (dom (heap w0)) <> l).
  { intros Heq. pose proof (is_fresh (dom (heap w0))) as Hnot.
    apply Hnot. rewrite Heq. apply elem_of_dom. eauto. }
  destruct (get_channels (dataset_state w0) (random_state w0))
    as [[d1 g1] [e|chs]] eqn:Ec.
  { rewrite (new_run_channels_raise a w0 _ _ _ Ec). split; [exact Hl|].
    intros self [=]. }
  destruct (get_label_values d1 g1) as [[d2 g2] [e|lbs]] eqn:El.
  { rewrite (new_run_labels_raise a w0 _ _ _ _ _ _ Ec El). split; [exact Hl|].
    intros self [=]. }
  rewrite (new_run_ok a w0 _ _ _ _ _ _ Ec El).
  set (new := fresh (dom (heap w0))) in *.
  set (w3 := {| heap := <[new := blank a chs lbs]> (heap w0);
                dataset_state := d2; random_state := g2 |}).
  assert (Hnew : heap w3 !! new = Some (blank a chs lbs))
    by apply lookup_insert_eq.
  destruct (next_run new _ w3 Hnew) as (d & g & tr & res & Hpicks & ->).
  cbn [run_world run_outcome heap]. split.
  - rewrite lookup_insert_ne by exact Hfresh. unfold w3. cbn [heap].
    rewrite lookup_insert_ne by exact Hfresh. exact Hl.
  - intros self Hout.
    destruct (after_loop (blank a chs lbs) res).2; [discriminate|].
    injection Hout as <-. exact Hfresh.
Qed.

(** X12: with a data source whose enumerations return, that never raises
    on a fetch and that returns uniformly shaped examples, construction
    cannot fail: it returns a new sampler after exactly batch_size fetches,
    configured with the arguments and the two enumerations and holding a
    full batch. *)
Theorem construction_returns (a : Args) (w0 : World D) d1 g1 chs d2 g2 lbs :
  never_raises ->
  uniformly_shaped ->
  get_channels (dataset_state w0) (random_state w0) = (d1, g1, inr chs) ->
  get_label_values d1 g1 = (d2, g2, inr lbs) ->
  run_outcome (Minibatch_new a w0) = inr (fresh (dom (heap w0))) /\
  length (requests (run_trace (Minibatch_new a w0)))
    = Z.to_nat (arg_batch_size a) /\
  exists o,
    heap (run_world (Minibatch_new a w0)) !! fresh (dom (heap w0)) = Some o /\
    config_of o = blank a chs lbs /\
    batch_ready (Z.of_nat (Z.to_nat (arg_batch_size a))) o.
Proof.
  intros Hnever Hu Ec El.
  rewrite (new_run_ok a w0 _ _ _ _ _ _ Ec El).
  set (new := fresh (dom (heap w0))).
  set (w3 := {| heap := <[new := blank a chs lbs]> (heap w0);
                dataset_state := d2; random_state := g2 |}).
  assert (Hnew : heap w3 !! new = Some (blank a chs lbs))
    by apply lookup_insert_eq.
  destruct (advance_returns_aux new _ w3 Hnever Hu Hnew)
    as (w1 & tr1 & o1 & -> & Hreq & Hself1 & Hc & Hready).
  cbn [run_world run_trace run_outcome].
  splits; [reflexivity|exact Hreq|]. exists o1. auto.
Qed.

End Construction.

(** ** The further properties on concrete runs *)

Lemma grid_never_raises : never_raises (D := nat).
Proof.
  intros req e (d & g & d' & g' & E). simpl in E. unfold grid_pick in E.
  destruct (random_random g). discriminate.
Qed.

Lemma scripted_leaves_random_alone : leaves_random_alone (D := Script).
Proof.
  intros req d g. simpl. unfold script_pick.
  destruct (sc_examples d); reflexivity.
Qed.

(** An advance of the sampler of the steady world keeps its
    configuration. *)
Lemma advance_frame_witness :
  exists o',
    heap (run_world (__next__ 1%positive steady_world)) !! 1%positive = Some o' /\
    batch_size o' = 2 /\ size_zxy o' = (1, 1, 1) /\
    padding_zxy o' = (0, 0, 0) /\ channels o' = [0] /\
    labels o' = [1] /\ equalized o' = true /\
    augment o' = false /\ rotation_range o' = (Finite (-45), Finite 45) /\
    shear_range o' = (Finite (-5), Finite 5).
Proof.
  exact (proj2 (advance_frame 1%positive ragged_sampler steady_world
                  steady_world_sampler)).
Defined.

(** The advance of the short world, whose second fetch raises. *)
Lemma failed_fetch_keeps_batch_witness :
  heap (run_world (__next__ 1%positive short_world)) = heap short_world.
Proof.
  apply (failed_fetch_keeps_batch 1%positive ragged_sampler short_world
           (EvPick (plain_request ragged_sampler)
                   (inl (PyExc "RuntimeError" "no valid location")))
           (PyExc "RuntimeError" "no valid location")).
  - exact short_world_sampler.
  - vm_compute. auto.
  - reflexivity.
Defined.

(** Construction on the steady script. *)
Lemma enumerated_once_witness :
  (exists reply,
     channel_calls (run_trace (Minibatch_new plain_args (empty_world steady_script)))
       = [EvGetChannels reply] /\
     run_trace (Minibatch_new plain_args (empty_world steady_script)) !! 0%nat
       = Some (EvGetChannels reply)) /\
  (label_calls (run_trace (Minibatch_new plain_args (empty_world steady_script))) = [] \/
   exists reply,
     label_calls (run_trace (Minibatch_new plain_args (empty_world steady_script)))
       = [EvGetLabelValues reply] /\
     run_trace (Minibatch_new plain_args (empty_world steady_script)) !! 1%nat
       = Some (EvGetLabelValues reply)) /\
  Forall (fun req =>
            run_trace (Minibatch_new plain_args (empty_world steady_script)) !! 0%nat
              = Some (EvGetChannels (inr (rq_channels req))) /\
            run_trace (Minibatch_new plain_args (empty_world steady_script)) !! 1%nat
              = Some (EvGetLabelValues (inr (rq_labels req))) /\
            rq_size_zxy req = (1, 1, 1) /\
            rq_pixel_padding req = (0, 0, 0))
    (requests (run_trace (Minibatch_new plain_args (empty_world steady_script)))).
Proof.
  exact (enumerated_once plain_args _ _ _
           (life_new plain_args (empty_world steady_script))).
Defined.

(** An advance of a sampler with batch_size -3. *)
Lemma negative_batch_size_witness :
  run_trace (__next__ 1%positive
    {| heap := {[1%positive := blank negative_batch_args [0] [1]]};
       dataset_state := steady_script; random_state := demo_rng |}) = [] /\
  run_outcome (__next__ 1%positive
    {| heap := {[1%positive := blank negative_batch_args [0] [1]]};
       dataset_state := steady_script; random_state := demo_rng |})
    = inr 1%positive.
Proof.
  assert (Hneg : batch_size (blank negative_batch_args [0] [1]) < 0)
    by reflexivity.
  destruct (negative_batch_size 1%positive (blank negative_batch_args [0] [1])
              {| heap := {[1%positive := blank negative_batch_args [0] [1]]};
                 dataset_state := steady_script; random_state := demo_rng |}
              (lookup_singleton_eq _ _) Hneg) as [E _].
  split; [exact (f_equal run_trace E)|exact (f_equal run_outcome E)].
Defined.

(** The sampler holding the first batch and the one holding none end up
    equal after fetching the second batch. *)
Lemma advance_overwrites_witness :
  heap (run_world (__next__ 1%positive steady_world)) !! 1%positive
    = heap (run_world (__next__ 1%positive unbatched_world)) !! 1%positive.
Proof.
  apply (advance_overwrites 1%positive ragged_sampler
           (blank plain_args [0] [1]) steady_world unbatched_world
           1%positive 1%positive).
  - exact steady_world_sampler.
  - apply lookup_singleton_eq.
  - reflexivity.
  - vm_compute. reflexivity.
  - vm_compute. reflexivity.
  - vm_compute. reflexivity.
Defined.


(** An advance of the augmenting sampler on the script, which does not use
    the random source: two fetches, four draws. *)
Lemma random_consumption_witness :
  random_state (run_world (__next__ 1%positive augmenting_world))
    = skip 4 (random_state augmenting_world).
Proof.
  assert (Hreq : length (requests (run_trace (__next__ 1%positive augmenting_world)))
                 = 2%nat) by (vm_compute; reflexivity).
  pose proof (random_consumption 1%positive augmenting_sampler augmenting_world
                scripted_leaves_random_alone augmenting_world_sampler) as Hrng.
  rewrite Hreq in Hrng. exact Hrng.
Defined.

(** The string of the sampler of the steady world, before and after an
    advance. *)
Lemma repr_constant_witness :
  run_outcome (__repr__ 1%positive (run_world (__next__ 1%positive steady_world)))
    = inr (infostring 2 (1, 1, 1) false) /\
  run_outcome (__repr__ 1%positive steady_world)
    = inr (infostring 2 (1, 1, 1) false).
Proof.
  assert (Hlife : lifetime plain_args (inr 1%positive) steady_world
            (run_trace (Minibatch_new plain_args (empty_world steady_script)))).
  { exact (life_new plain_args (empty_world steady_script)). }
  split.
  - rewrite (repr_constant plain_args 1%positive _ _
               (life_next plain_args 1%positive steady_world _ Hlife)).
    reflexivity.
  - rewrite (repr_constant plain_args 1%positive _ _ Hlife). reflexivity.
Defined.

Lemma grid_world_sampler :
  exists o, heap grid_world !! 1%positive = Some o /\ batch_size o = 2.
Proof. eexists. split; [vm_compute; reflexivity|reflexivity]. Qed.

(** The docstring loop on the synthetic image: 22 fetches. *)
Lemma example_loop_terminates_witness :
  run_outcome (example_loop 11 1%positive grid_world) = inr (Some 11) /\
  length (requests (run_trace (example_loop 11 1%positive grid_world))) = 22%nat.
Proof.
  destruct grid_world_sampler as (o & Ho & Hbs).
  destruct (example_loop_terminates 1%positive o grid_world 11
              grid_never_raises grid_uniformly_shaped Ho (le_n 11))
    as (Hout & Hreq & _).
  rewrite Hbs in Hreq. split; [exact Hout|exact Hreq].
Defined.

(** An advance on the synthetic image. *)
Lemma advance_returns_witness :
  run_outcome (__next__ 1%positive grid_world) = inr 1%positive /\
  length (requests (run_trace (__next__ 1%positive grid_world))) = 2%nat.
Proof.
  destruct grid_world_sampler as (o & Ho & Hbs).
  destruct (advance_returns 1%positive o grid_world
              grid_never_raises grid_uniformly_shaped Ho)
    as (Hout & Hreq & _).
  rewrite Hbs in Hreq. split; [exact Hout|exact Hreq].
Defined.

(** A second sampler constructed in the steady world leaves the first as
    it was. *)
Lemma construction_frame_witness :
  heap (run_world (Minibatch_new augmenting_args steady_world)) !! 1%positive
    = Some ragged_sampler.
Proof.
  exact (proj1 (construction_frame augmenting_args steady_world 1%positive
                  ragged_sampler steady_world_sampler)).
Defined.

(** Construction on the synthetic image. *)
Lemma construction_returns_witness :
  run_outcome (Minibatch_new demo_args (empty_world 0%nat)) = inr 1%positive /\
  length (requests (run_trace (Minibatch_new demo_args (empty_world 0%nat))))
    = 2%nat.
Proof.
  destruct (construction_returns demo_args (empty_world 0%nat)
              0%nat demo_rng [0; 1; 2] 0%nat demo_rng [1; 2; 3]
              grid_never_raises grid_uniformly_shaped eq_refl eq_refl)
    as (Hout & Hreq & _).
  split; [exact Hout|exact Hreq].
Defined.
